(** * Ex3 voice agent: conversation memory, engine dispatch and the
      request handlers, embedded and verified.

    The development follows the layout of the repository:

    - [Py]: the Python values, exceptions and string operations the code
      relies on, and the state-and-exception monad in which the methods
      and request handlers are written;
    - [State]: [src/state.py], the [ConversationState] class;
    - [Asr]: [src/asr.py], the speech-to-text engines and their dispatch;
    - [Llm]: [src/llm.py], the reply backends and their dispatch;
    - [Tts]: [src/tts.py], speech synthesis;
    - [Main]: [main.py], the request handlers over the module-level
      [state] object;
    - [Objects]: [ConversationState] once more, at the level of Python
      objects on a heap, where the identity of the message dictionaries
      is visible;
    - [Scripted]: a world with scripted services that records the calls
      made to it, on which the handlers can be run.

    The definitions come first; the properties follow, module by module,
    and at the end the proof that the objects of [Objects] behave as the
    values of [State].
*)

From Stdlib Require Import ZArith List String Ascii Bool Lia Floats.
From stdpp Require Import base option list strings gmap.

Local Open Scope Z_scope.
Local Open Scope string_scope.
Local Set Warnings "-inexact-float".

(* ===================================================================== *)
(** * Python values, exceptions and strings *)
(* ===================================================================== *)

Module Py.

(** The exceptions that the code raises itself, or lets through from the
    libraries it calls. [LibraryError] stands for any other exception of
    an external collaborator (model loading, file access, HTTP client,
    synthesis engine), named by its class. *)
Inductive exn : Type :=
  | IndexError (msg : string)
  | TypeError (msg : string)
  | ValueError (msg : string)
  | RuntimeError (msg : string)
  | UnknownValueError
  | RequestError (msg : string)
  | HTTPStatusError (status : Z)
  | LibraryError (cls : string).

(** The outcome of a call: a value, or a raised exception. *)
Inductive result (A : Type) : Type :=
  | Ok (a : A)
  | Raise (e : exn).
Arguments Ok {A} a.
Arguments Raise {A} e.

(** ** State and exceptions

    A Python call mutates the objects it can reach and then returns or
    raises; what it mutated before raising stays mutated. A computation
    therefore maps the state before to an outcome and the state after. *)
Definition M (St A : Type) : Type := St -> result A * St.

Definition ret {St A} (a : A) : M St A := fun s => (Ok a, s).

Definition raise {St A} (e : exn) : M St A := fun s => (Raise e, s).

Definition bind {St A B} (m : M St A) (k : A -> M St B) : M St B :=
  fun s => match m s with
           | (Ok a, s') => k a s'
           | (Raise e, s') => (Raise e, s')
           end.

Definition get {St} : M St St := fun s => (Ok s, s).

Definition gets {St A} (f : St -> A) : M St A := fun s => (Ok (f s), s).

Definition modify {St} (f : St -> St) : M St unit := fun s => (Ok tt, f s).

(** [try m handler]: a [try: ... except ...:] block. The handler sees the
    exception and either handles it or lets it through. *)
Definition try {St A} (m : M St A) (handler : exn -> M St A) : M St A :=
  fun s => match m s with
           | (Ok a, s') => (Ok a, s')
           | (Raise e, s') => handler e s'
           end.

(** ** Strings *)

(** [s.lower()] on the ASCII letters. Python strings are sequences of
    Unicode code points; the strings compared with below are ASCII, and
    no non-ASCII code point lowers to one of their letters. *)
Definition lower_ascii (c : ascii) : ascii :=
  let n := N_of_ascii c in
  if ((65 <=? n) && (n <=? 90))%N then ascii_of_N (n + 32) else c.

Fixpoint lower (s : string) : string :=
  match s with
  | EmptyString => EmptyString
  | String c s' => String (lower_ascii c) (lower s')
  end.

(** Two characters that differ at most in case: they are equal, or one is
    a capital letter and the other the small letter 32 places after it. *)
Definition same_letter (a b : ascii) : bool :=
  let x := N_of_ascii a in
  let y := N_of_ascii b in
  ((x =? y) ||
   ((65 <=? x) && (x <=? 90) && (y =? x + 32)) ||
   ((65 <=? y) && (y <=? 90) && (x =? y + 32)))%N.

(** Two strings that are equal when compared case-insensitively. *)
Fixpoint same_ignoring_case (s t : string) : bool :=
  match s, t with
  | EmptyString, EmptyString => true
  | String a s', String b t' => same_letter a b && same_ignoring_case s' t'
  | _, _ => false
  end.

(** A string without capital letters. *)
Fixpoint no_capitals (s : string) : bool :=
  match s with
  | EmptyString => true
  | String c s' =>
      negb ((65 <=? N_of_ascii c) && (N_of_ascii c <=? 90))%N && no_capitals s'
  end.

(** [str.isspace] on ASCII: tab, line feed, vertical tab, form feed,
    carriage return, the four separators 28-31 and the space. *)
Definition isspace (c : ascii) : bool :=
  let n := N_of_ascii c in
  (((9 <=? n) && (n <=? 13)) || ((28 <=? n) && (n <=? 32)))%N.

Fixpoint lstrip (s : string) : string :=
  match s with
  | EmptyString => EmptyString
  | String c s' => if isspace c then lstrip s' else s
  end.

Fixpoint rstrip (s : string) : string :=
  match s with
  | EmptyString => EmptyString
  | String c s' =>
      match rstrip s' with
      | EmptyString => if isspace c then EmptyString else String c EmptyString
      | r => String c r
      end
  end.

(** [s.strip()] *)
Definition strip (s : string) : string := rstrip (lstrip s).

(** [s.split(sep, 1)[-1]]: what follows the first occurrence of [sep], or
    all of [s] when [sep] does not occur. *)
Definition split1_last (sep s : string) : string :=
  match String.index 0 sep s with
  | Some n =>
      let from := (n + String.length sep)%nat in
      String.substring from (String.length s - from) s
  | None => s
  end.

(** [needle in haystack] *)
Definition contains (needle haystack : string) : bool :=
  match String.index 0 needle haystack with
  | Some _ => true
  | None => match needle with EmptyString => true | _ => false end
  end.

(** [d] when [x] is missing, as in [dict.get(k, d)]. *)
Definition default_to {A} (d : A) (x : option A) : A :=
  match x with
  | Some v => v
  | None => d
  end.

(** [x or default] for an optional string: [None] and the empty string
    are falsy. *)
Definition or_else (x : option string) (default : string) : string :=
  match x with
  | Some (String c s) => String c s
  | _ => default
  end.

(** [os.environ], read from the world [W]: the state of everything
    outside the conversation object (environment, files, network, loaded
    models, random source). *)
Class Os (W : Type) : Type := {
  os_environ : W -> string -> option string
}.

(** [os.environ.get(k)] and [os.environ.get(k, default)] *)
Definition environ_get_opt {W} `{!Os W} (k : string) : M W (option string) :=
  gets (fun w => os_environ w k).

Definition environ_get {W} `{!Os W} (k default : string) : M W string :=
  gets (fun w => default_to default (os_environ w k)).

(** The builtin [int(s)] on a string: the integer, or [ValueError]. *)
Class Builtins : Type := {
  py_int : string -> result Z
}.

(** A pure outcome as a computation. *)
Definition lift {St A} (r : result A) : M St A := fun s => (r, s).

End Py.

Import Py.

Declare Scope py_scope.
Delimit Scope py_scope with py.
Notation "x <- m ;; k" := (bind m (fun x => k))
  (at level 100, m at next level, right associativity) : py_scope.
Notation "m ;;; k" := (bind m (fun _ => k))
  (at level 100, right associativity) : py_scope.
Local Open Scope py_scope.

(* ===================================================================== *)
(** * src/state.py *)
(* ===================================================================== *)

Module State.

(** A message is the dictionary [{"role": r, "content": c}]. *)
Record Message : Type := mkMessage { role : string; content : string }.

Definition system_msg (c : string) : Message := mkMessage "system" c.
Definition user_msg (c : string) : Message := mkMessage "user" c.
Definition assistant_msg (c : string) : Message := mkMessage "assistant" c.

(** The attributes of a [ConversationState]. [max_turns] is a Python
    [int], unbounded and possibly negative; [history] is the deque, oldest
    message first. *)
Record ConversationState : Type := mkState {
  max_turns : Z;
  system_prompt : string;
  history : list Message
}.

Definition set_history (self : ConversationState) (h : list Message)
  : ConversationState :=
  mkState (max_turns self) (system_prompt self) h.

Definition DEFAULT_PROMPT : string :=
  "You are a helpful, concise voice assistant. " +:+
  "Keep replies short (1-3 sentences) and ask clarifying questions when needed.".

(** [__init__(self, max_turns=8, system_prompt=None)] *)
Definition init (max_turns : Z) (system_prompt : option string)
  : ConversationState :=
  mkState max_turns (or_else system_prompt DEFAULT_PROMPT) [].

(** [reset]: [self.history.clear()] *)
Definition reset : M ConversationState unit :=
  modify (fun self => set_history self []).

(** The loop of [_trim] on the deque: while it is longer than [limit],
    [popleft]. Each round removes one element, so the recursion is on the
    deque; [popleft] on the empty deque raises. The loop does not look at
    the elements. *)
Fixpoint _trim_loop {A : Type} (limit : Z) (h : list A) {struct h}
  : result unit * list A :=
  if Z.of_nat (length h) >? limit then
    match h with
    | [] => (Raise (IndexError "pop from an empty deque"), [])
    | _ :: h' => _trim_loop limit h'
    end
  else (Ok tt, h).

Definition _trim : M ConversationState unit :=
  fun self =>
    let (r, h) := _trim_loop (max_turns self * 2) (history self) in
    (r, set_history self h).

Definition append (m : Message) : M ConversationState unit :=
  modify (fun self => set_history self (history self ++ [m])).

Definition add_user (text : string) : M ConversationState unit :=
  append (user_msg text) ;;; _trim.

Definition add_assistant (text : string) : M ConversationState unit :=
  append (assistant_msg text) ;;; _trim.

Definition get_messages : M ConversationState (list Message) :=
  self <- get ;;
  ret (system_msg (system_prompt self) :: history self).

(** ** Sequences of calls *)

(** The calls that append to the history. *)
Inductive call : Type :=
  | AddUser (text : string)
  | AddAssistant (text : string).

(** The message a call appends. *)
Definition appended (c : call) : Message :=
  match c with
  | AddUser text => user_msg text
  | AddAssistant text => assistant_msg text
  end.

Definition do_call (c : call) : M ConversationState unit :=
  match c with
  | AddUser text => add_user text
  | AddAssistant text => add_assistant text
  end.

(** The calls one after the other; the first exception ends the run. *)
Fixpoint run (cs : list call) : M ConversationState unit :=
  match cs with
  | [] => ret tt
  | c :: rest => do_call c ;;; run rest
  end.

(** The newest [n] elements of a list that grows at its end, in order. *)
Definition newest {A} (n : nat) (l : list A) : list A :=
  drop (length l - n) l.

(** The states a [ConversationState] constructed with the given arguments
    can be in: as constructed, and after any method call on a state it can
    be in, whether the call returned or raised. *)
Inductive reachable (max_turns : Z) (system_prompt : option string)
  : ConversationState -> Prop :=
  | reach_init :
      reachable max_turns system_prompt (init max_turns system_prompt)
  | reach_reset self :
      reachable max_turns system_prompt self ->
      reachable max_turns system_prompt (snd (reset self))
  | reach_call self c :
      reachable max_turns system_prompt self ->
      reachable max_turns system_prompt (snd (do_call c self))
  | reach_get_messages self :
      reachable max_turns system_prompt self ->
      reachable max_turns system_prompt (snd (get_messages self)).

(** [add_user(x)] followed at once by [get_messages()]: both return, and
    the snapshot ends with the user message [x]. *)
Definition snapshot_ends_with_user (x : string) (self : ConversationState)
  : Prop :=
  exists self' msgs,
    add_user x self = (Ok tt, self') /\
    get_messages self' = (Ok msgs, self') /\
    last msgs = Some (user_msg x).

(** The scenario of the specification, with [max_turns = 2]. *)
Definition scenario_calls : list call :=
  [AddUser "a1"; AddAssistant "b1"; AddUser "a2"; AddAssistant "b2"; AddUser "a3"].

Definition scenario_history : list Message :=
  [assistant_msg "b1"; user_msg "a2"; assistant_msg "b2"; user_msg "a3"].

(** How many messages of a list carry the role [r]. *)
Definition count_role (r : string) (msgs : list Message) : nat :=
  length (filter (fun m => role m = r) msgs).

End State.

(* ===================================================================== *)
(** * src/asr.py *)
(* ===================================================================== *)

Module Asr.

(** The [speech_recognition] package, as far as the code uses it. [W] is
    the world outside the conversation object. [sr_record] is
    [AudioFile(path)] with [Recognizer.record]; [sr_recognize_google] is
    [Recognizer.recognize_google(audio, key=api_key)], which raises
    [UnknownValueError] on unintelligible speech and [RequestError] when
    the request to the service fails. *)
Class SpeechRecognition (W : Type) : Type := {
  Audio : Type;
  sr_record : string -> M W Audio;
  sr_recognize_google : Audio -> option string -> M W string
}.

(** A segment of a whisper result, and the result dictionary: the keys
    ["text"] and ["segments"], and ["no_speech_prob"] of a segment, each
    of which may be missing. *)
Record Segment : Type := mkSegment { no_speech_prob : option float }.

Record WhisperResult : Type := mkWhisperResult {
  wr_text : option string;
  wr_segments : option (list Segment)
}.

(** The [whisper] package: [load_model] and [model.transcribe]. *)
Class Whisper (W : Type) : Type := {
  WhisperModel : Type;
  whisper_load_model : string -> M W WhisperModel;
  whisper_transcribe : WhisperModel -> string -> M W WhisperResult
}.

Section Engines.
Context {W : Type} `{!SpeechRecognition W} `{!Whisper W}.

(** The handlers of the [try] block of [transcribe_google]; any other
    exception passes through. *)
Definition google_handler (e : exn) : M W (string * float) :=
  match e with
  | UnknownValueError => ret ("", 0.0%float)
  | RequestError msg => raise (RuntimeError ("Google ASR request error: " +:+ msg))
  | _ => raise e
  end.

Definition transcribe_google (wav_path : string) (api_key : option string)
  : M W (string * float) :=
  audio <- sr_record wav_path ;;
  try (text <- sr_recognize_google audio api_key ;;
       let conf := 0.8%float in
       ret (text, conf))
      google_handler.

(** [result.get("segments", [{}])[0].get("no_speech_prob", 0.2)] *)
Definition first_no_speech_prob (r : WhisperResult) : result float :=
  match default_to [mkSegment None] (wr_segments r) with
  | [] => Raise (IndexError "list index out of range")
  | seg :: _ => Ok (default_to 0.2%float (no_speech_prob seg))
  end.

Definition transcribe_whisper (wav_path : string) (model_name : string)
  : M W (string * float) :=
  model <- whisper_load_model model_name ;;
  r <- whisper_transcribe model wav_path ;;
  let text := strip (or_else (wr_text r) "") in
  match first_no_speech_prob r with
  | Ok p => let conf := (1.0 - p)%float in ret (text, conf)
  | Raise e => raise e
  end.

(** [transcribe(wav_path, engine="whisper", api_key=None)] *)
Definition transcribe (wav_path : string) (engine : option string)
    (api_key : option string) : M W (string * float) :=
  let engine := lower (or_else engine "whisper") in
  if String.eqb engine "google" then transcribe_google wav_path api_key
  else transcribe_whisper wav_path "base".

End Engines.

(** The engine identifier names the Google engine: it is given, and it is
    [google] when compared case-insensitively. *)
Definition names_google (engine : option string) : bool :=
  match engine with
  | Some e => same_ignoring_case e "google"
  | None => false
  end.

(** A whisper result without text: the key is missing, or its value is
    [None], empty or blank. *)
Definition no_text (r : WhisperResult) : Prop :=
  strip (or_else (wr_text r) "") = "".

End Asr.

(* ===================================================================== *)
(** * src/llm.py *)
(* ===================================================================== *)

Module Llm.

Import State.

(** The JSON body posted to the chat service. *)
Record Payload : Type := mkPayload {
  p_model : string;
  p_messages : list Message;
  p_stream : bool
}.

(** The decoded body of the reply, as far as it is read:
    [data.get("message", {}).get("content", "")]. *)
Record ChatData : Type := mkChatData { cd_message : option (option string) }.

(** [httpx]: [Client(timeout).post(url, json=payload)], and on the
    response [raise_for_status()] and [json()]. *)
Class Httpx (W : Type) : Type := {
  Response : Type;
  httpx_post : Z -> string -> Payload -> M W Response;
  raise_for_status : Response -> result unit;
  response_json : Response -> result ChatData
}.

(** [transformers]: [pipeline(task, model=..., device_map="auto")] and the
    call of the pipeline on a prompt, read at [[0]["generated_text"]]. *)
Class Transformers (W : Type) : Type := {
  Pipeline : Type;
  hf_pipeline : string -> string -> M W Pipeline;
  hf_generate : Pipeline -> string -> M W string
}.

Section Backends.
Context {W : Type} `{!Os W} `{!Httpx W} `{!Transformers W}.

Definition message_content (data : ChatData) : string :=
  match cd_message data with
  | Some (Some c) => c
  | _ => ""
  end.

Definition chat_ollama (messages : list Message) (model : string) : M W string :=
  url <- environ_get "OLLAMA_URL" "http://localhost:11434/api/chat" ;;
  let payload := mkPayload model messages false in
  r <- httpx_post 60 url payload ;;
  lift (raise_for_status r) ;;;
  data <- lift (response_json r) ;;
  ret (message_content data).

(** The loop of [chat_hf] that builds the prompt. *)
Fixpoint hf_prompt_loop (prompt : string) (messages : list Message) : string :=
  match messages with
  | [] => prompt
  | m :: rest =>
      let role := role m in
      if String.eqb role "system" then hf_prompt_loop prompt rest
      else
        let prefix := if String.eqb role "user" then "User" else "Assistant" in
        hf_prompt_loop (prompt +:+ prefix +:+ ": " +:+ content m +:+ "
") rest
  end.

Definition hf_prompt (messages : list Message) : string :=
  hf_prompt_loop "" messages +:+ "Assistant: ".

Definition chat_hf (messages : list Message) (model : string) : M W string :=
  let prompt := hf_prompt messages in
  gen <- hf_pipeline "text-generation" model ;;
  out <- hf_generate gen prompt ;;
  ret (strip (split1_last "Assistant:" out)).

Definition chat (messages : list Message) : M W string :=
  backend <- environ_get "LLM_BACKEND" "hf" ;;
  let backend := lower backend in
  if String.eqb backend "hf" then
    model <- environ_get "HF_MODEL" "TinyLlama/TinyLlama-1.1B-Chat-v1.0" ;;
    chat_hf messages model
  else
    model <- environ_get "LLM_MODEL" "llama3" ;;
    chat_ollama messages model.

End Backends.

(** The line of the prompt for a message that is not a system message. *)
Definition hf_line (m : Message) : string :=
  (if String.eqb (role m) "user" then "User" else "Assistant")
  +:+ ": " +:+ content m +:+ "
".

(** The in-process backend is selected: [LLM_BACKEND] is unset, or is
    [hf] in any case. *)
Definition selects_hf {W} `{!Os W} (w : W) : Prop :=
  lower (default_to "hf" (os_environ w "LLM_BACKEND")) = "hf".

End Llm.

(* ===================================================================== *)
(** * src/tts.py *)
(* ===================================================================== *)

Module Tts.

(** A voice of the synthesis engine: [v.name] (possibly [None]), [v.id]. *)
Record Voice : Type := mkVoice { v_name : option string; v_id : string }.

(** [pyttsx3]: [init()], [setProperty('rate', r)], [getProperty('voices')],
    [setProperty('voice', id)], [save_to_file] and [runAndWait]. *)
Class Pyttsx3 (W : Type) : Type := {
  Engine : Type;
  pyttsx3_init : M W Engine;
  set_rate : Engine -> Z -> M W unit;
  get_voices : Engine -> M W (list Voice);
  set_voice : Engine -> string -> M W unit;
  save_to_file : Engine -> string -> string -> M W unit;
  run_and_wait : Engine -> M W unit
}.

Section Synthesis.
Context {W : Type} `{!Os W} `{!Builtins} `{!Pyttsx3 W}.

(** The [for v in voices] loop: the first voice whose lowered name
    contains the lowered [voice_name] is selected, and the loop ends. *)
Fixpoint select_voice (engine : Engine) (voice_name : string)
    (voices : list Voice) : M W unit :=
  match voices with
  | [] => ret tt
  | v :: rest =>
      if contains (lower voice_name) (lower (or_else (v_name v) ""))
      then set_voice engine (v_id v)
      else select_voice engine voice_name rest
  end.

Definition synthesize_to_wav (text out_path : string) : M W string :=
  engine <- pyttsx3_init ;;
  rate_str <- environ_get "VOICE_RATE" "170" ;;
  rate <- lift (py_int rate_str) ;;
  set_rate engine rate ;;;
  voice_name <- environ_get_opt "VOICE_NAME" ;;
  match voice_name with
  | Some (String c s) =>
      voices <- get_voices engine ;;
      select_voice engine (String c s) voices
  | _ => ret tt
  end ;;;
  save_to_file engine text out_path ;;;
  run_and_wait engine ;;;
  ret out_path.

End Synthesis.

(** The test of the voice loop: the lowered [voice_name] occurs in the
    lowered name of the voice, [None] counting as the empty name. *)
Definition voice_matches (voice_name : string) (v : Voice) : bool :=
  contains (lower voice_name) (lower (or_else (v_name v) "")).

(** [VOICE_NAME] is unset or empty. *)
Definition no_voice_name (voice_name : option string) : Prop :=
  voice_name = None \/ voice_name = Some "".

End Tts.

(* ===================================================================== *)
(** * main.py *)
(* ===================================================================== *)

Module Main.

Import State.

(** An uploaded file is its content; [tempfile], [uuid], file access and
    [shutil] act on the world. [write_upload path file] is the block
    [with open(path, "wb") as f: f.write(await file.read())]. *)
Class Files (W : Type) : Type := {
  Upload : Type;
  mkdtemp : M W string;
  uuid4_hex : M W string;
  write_upload : string -> Upload -> M W unit;
  rmtree_ignore_errors : string -> M W unit;
  read_text : string -> M W string
}.

(** What a handler returns. *)
Inductive Reply : Type :=
  | HTMLResponse (html : string)
  | JsonOk (ok : bool)
  | JsonTranscript (text : string) (confidence : float)
  | JsonReply (reply : string)
  | FileResponse (path media_type filename : string).

(** The process: the module-level [state] object and the world. A handler
    is modelled as it runs on its own, one request at a time. *)
Record Server (W : Type) : Type := mkServer {
  state : ConversationState;
  world : W
}.
Arguments mkServer {W} state world.
Arguments state {W} s.
Arguments world {W} s.

(** A method call on [state], and a call that acts on the world only. *)
Definition on_state {W A} (m : M ConversationState A) : M (Server W) A :=
  fun srv => let (r, st) := m (state srv) in (r, mkServer st (world srv)).

Definition on_world {W A} (m : M W A) : M (Server W) A :=
  fun srv => let (r, w) := m (world srv) in (r, mkServer (state srv) w).

Section Handlers.
Context {W : Type} `{!Os W} `{!Builtins} `{!Files W}
  `{!Asr.SpeechRecognition W} `{!Asr.Whisper W}
  `{!Llm.Httpx W} `{!Llm.Transformers W} `{!Tts.Pyttsx3 W}.

(** [state = ConversationState(max_turns=int(os.environ.get("MAX_TURNS","8")))] *)
Definition startup : M W ConversationState :=
  s <- environ_get "MAX_TURNS" "8" ;;
  n <- lift (py_int s) ;;
  ret (init n None).

Definition home : M (Server W) Reply :=
  html <- on_world (read_text "client/index.html") ;;
  ret (HTMLResponse html).

Definition reset : M (Server W) Reply :=
  on_state State.reset ;;;
  ret (JsonOk true).

Definition asr_endpoint (engine : string) (file : Upload) : M (Server W) Reply :=
  tmp <- on_world mkdtemp ;;
  hex <- on_world uuid4_hex ;;
  let wav_path := tmp +:+ "/" +:+ "in_" +:+ hex +:+ ".wav" in
  on_world (write_upload wav_path file) ;;;
  api_key <- on_world (environ_get_opt "GOOGLE_SPEECH_API_KEY") ;;
  tc <- on_world (Asr.transcribe wav_path (Some engine) api_key) ;;
  on_world (rmtree_ignore_errors tmp) ;;;
  ret (JsonTranscript (fst tc) (snd tc)).

Definition reply_endpoint (text : string) : M (Server W) Reply :=
  on_state (add_user text) ;;;
  messages <- on_state get_messages ;;
  reply <- on_world (Llm.chat messages) ;;
  on_state (add_assistant reply) ;;;
  ret (JsonReply reply).

Definition speak_endpoint (text : string) : M (Server W) Reply :=
  tmp <- on_world mkdtemp ;;
  hex <- on_world uuid4_hex ;;
  let out_wav := tmp +:+ "/" +:+ "tts_" +:+ hex +:+ ".wav" in
  on_world (Tts.synthesize_to_wav text out_wav) ;;;
  ret (FileResponse out_wav "audio/wav" "reply.wav").

End Handlers.

(** A handler that leaves the conversation as it is, whether it returns
    or raises. *)
Definition keeps_state {W A} (m : M (Server W) A) : Prop :=
  forall srv, state (snd (m srv)) = state srv.

(** ** Requests one after the other *)

(** The text of [{"reply": reply}]. *)
Definition reply_text (r : Reply) : string :=
  match r with
  | JsonReply reply => reply
  | _ => ""
  end.

(** The two messages of a turn. *)
Definition turn (text reply : string) : list Message :=
  [user_msg text; assistant_msg reply].

Section Conversation.
Context {W : Type} `{!Os W} `{!Llm.Httpx W} `{!Llm.Transformers W}.

(** A client that posts the [texts] to [/reply] one after the other and
    collects the replies; the first failed request ends it. *)
Fixpoint converse (texts : list string) : M (Server W) (list string) :=
  match texts with
  | [] => ret []
  | text :: rest =>
      r <- reply_endpoint text ;;
      replies <- converse rest ;;
      ret (reply_text r :: replies)
  end.

End Conversation.

End Main.

(* ===================================================================== *)
(** * src/state.py on a heap of objects *)
(* ===================================================================== *)

(** In [State] a message is a value. In Python it is a dictionary object,
    and the deque and the lists hold references to it; whoever holds a
    reference can change the dictionary for all. This module keeps the
    objects in a store, so that sharing is part of the model. *)
Module Objects.

Definition loc : Type := nat.

(** The objects that occur: message dictionaries, lists and deques of
    references. *)
Inductive obj : Type :=
  | Dict (d : gmap string string)
  | PyList (items : list loc)
  | Deque (items : list loc).

Abbreviation heap := (gmap loc obj).

(** A new object gets an identity that no live object has. *)
Definition alloc (o : obj) : M heap loc :=
  fun h => let l := fresh (dom h) in (Ok l, <[l:=o]> h).

Definition deque_items (q : loc) : M heap (list loc) :=
  fun h => match h !! q with
           | Some (Deque items) => (Ok items, h)
           | _ => (Raise (TypeError "deque expected"), h)
           end.

Definition list_items (l : loc) : M heap (list loc) :=
  fun h => match h !! l with
           | Some (PyList items) => (Ok items, h)
           | _ => (Raise (TypeError "list expected"), h)
           end.

Definition dict_items (d : loc) : M heap (gmap string string) :=
  fun h => match h !! d with
           | Some (Dict kv) => (Ok kv, h)
           | _ => (Raise (TypeError "dict expected"), h)
           end.

Definition store (l : loc) (o : obj) : M heap unit :=
  modify (fun h : heap => <[l:=o]> h).

(** [q.clear()], [q.append(x)], [q.popleft()], [len(q)] on a deque. *)
Definition deque_clear (q : loc) : M heap unit :=
  deque_items q ;;; store q (Deque []).

Definition deque_append (q x : loc) : M heap unit :=
  items <- deque_items q ;; store q (Deque (items ++ [x])).

Definition deque_popleft (q : loc) : M heap loc :=
  items <- deque_items q ;;
  match items with
  | [] => raise (IndexError "pop from an empty deque")
  | x :: rest => store q (Deque rest) ;;; ret x
  end.

Definition deque_len (q : loc) : M heap Z :=
  items <- deque_items q ;; ret (Z.of_nat (length items)).

(** [list(q)]: a new list with the references the deque holds. *)
Definition list_of_deque (q : loc) : M heap loc :=
  items <- deque_items q ;; alloc (PyList items).

(** [l.extend(other)] *)
Definition list_extend (l other : loc) : M heap unit :=
  a <- list_items l ;;
  b <- list_items other ;;
  store l (PyList (a ++ b)).

(** [{"role": role, "content": content}]: a new dictionary. *)
Definition message_dict (role content : string) : gmap string string :=
  <["role" := role]> (<["content" := content]> ∅).

Definition new_message (role content : string) : M heap loc :=
  alloc (Dict (message_dict role content)).

(** The attributes of the [ConversationState] object; [history] refers to
    the deque. *)
Record ConversationState : Type := mkState {
  max_turns : Z;
  system_prompt : string;
  history : loc
}.

Definition init (max_turns : Z) (system_prompt : option string)
  : M heap ConversationState :=
  q <- alloc (Deque []) ;;
  ret (mkState max_turns (or_else system_prompt State.DEFAULT_PROMPT) q).

Definition reset (self : ConversationState) : M heap unit :=
  deque_clear (history self).

(** The [while] loop of [_trim]. Every round but the last removes an
    element or raises, so [len + 1] rounds are enough; [rounds] counts
    them down. *)
Fixpoint _trim_loop (rounds : nat) (self : ConversationState) : M heap unit :=
  match rounds with
  | O => ret tt
  | S rounds' =>
      n <- deque_len (history self) ;;
      if n >? max_turns self * 2 then
        deque_popleft (history self) ;;; _trim_loop rounds' self
      else ret tt
  end.

Definition _trim (self : ConversationState) : M heap unit :=
  n <- deque_len (history self) ;;
  _trim_loop (S (Z.to_nat n)) self.

Definition add_user (self : ConversationState) (text : string) : M heap unit :=
  m <- new_message "user" text ;;
  deque_append (history self) m ;;;
  _trim self.

Definition add_assistant (self : ConversationState) (text : string) : M heap unit :=
  m <- new_message "assistant" text ;;
  deque_append (history self) m ;;;
  _trim self.

Definition get_messages (self : ConversationState) : M heap loc :=
  sys <- new_message "system" (system_prompt self) ;;
  msgs <- alloc (PyList [sys]) ;;
  copy <- list_of_deque (history self) ;;
  list_extend msgs copy ;;;
  ret msgs.

(** ** What a caller can do with a list of dictionaries *)

Inductive mutation : Type :=
  | ListAppend (l x : loc)                     (* l.append(x) *)
  | ListSetItem (l : loc) (i : nat) (x : loc)  (* l[i] = x *)
  | ListDelItem (l : loc) (i : nat)            (* del l[i] *)
  | ListClear (l : loc)                        (* l.clear() *)
  | ListAssign (l : loc) (xs : list loc)       (* l[:] = xs *)
  | DictSetItem (d : loc) (k v : string)       (* d[k] = v *)
  | DictDelItem (d : loc) (k : string)         (* del d[k] *)
  | DictClear (d : loc)                        (* d.clear() *)
  | DictUpdate (d : loc) (kv : gmap string string).  (* d.update(kv) *)

(** The object a mutation writes to. *)
Definition target (m : mutation) : loc :=
  match m with
  | ListAppend l _ | ListSetItem l _ _ | ListDelItem l _ | ListClear l
  | ListAssign l _ => l
  | DictSetItem d _ _ | DictDelItem d _ | DictClear d | DictUpdate d _ => d
  end.

Definition mutate (m : mutation) : M heap unit :=
  match m with
  | ListAppend l x =>
      items <- list_items l ;; store l (PyList (items ++ [x]))
  | ListSetItem l i x =>
      items <- list_items l ;;
      if (i <? length items)%nat then store l (PyList (<[i:=x]> items))
      else raise (IndexError "list assignment index out of range")
  | ListDelItem l i =>
      items <- list_items l ;;
      if (i <? length items)%nat then store l (PyList (delete i items))
      else raise (IndexError "list assignment index out of range")
  | ListClear l =>
      list_items l ;;; store l (PyList [])
  | ListAssign l xs =>
      list_items l ;;; store l (PyList xs)
  | DictSetItem d k v =>
      kv <- dict_items d ;; store d (Dict (<[k:=v]> kv))
  | DictDelItem d k =>
      kv <- dict_items d ;;
      match kv !! k with
      | Some _ => store d (Dict (delete k kv))
      | None => raise (LibraryError "KeyError")
      end
  | DictClear d =>
      dict_items d ;;; store d (Dict ∅)
  | DictUpdate d kv' =>
      kv <- dict_items d ;; store d (Dict (kv' ∪ kv))
  end.

Fixpoint mutate_all (ms : list mutation) : M heap unit :=
  match ms with
  | [] => ret tt
  | m :: rest => mutate m ;;; mutate_all rest
  end.

(** ** Reading the history *)

(** The dictionaries the deque refers to, by value, oldest first. *)
Definition history_value (self : ConversationState) (h : heap)
  : option (list (gmap string string)) :=
  match h !! history self with
  | Some (Deque items) =>
      mapM (fun l => match h !! l with Some (Dict kv) => Some kv | _ => None end) items
  | _ => None
  end.

Definition message_of (kv : gmap string string) : option State.Message :=
  match kv !! "role", kv !! "content" with
  | Some r, Some c => Some (State.mkMessage r c)
  | _, _ => None
  end.

(** The [State.ConversationState] that the object and the heap stand for. *)
Definition abstract (self : ConversationState) (h : heap)
  : option State.ConversationState :=
  kvs ← history_value self h ;
  msgs ← mapM message_of kvs ;
  Some (State.mkState (max_turns self) (system_prompt self) msgs).

(** The object at [l] is a dictionary that reads as the message [m]. *)
Definition represents (h : heap) (l : loc) (m : State.Message) : Prop :=
  exists kv, h !! l = Some (Dict kv) /\ message_of kv = Some m.

(** ** The snapshot in the hands of a caller *)

(** A mutation of the list that [get_messages] returned, or of the
    system message that was created for it. *)
Definition on_list_or_system (msgs sys : loc) (m : mutation) : Prop :=
  target m = msgs \/ target m = sys.

(** A mutation of the returned list or of one of the objects in it. *)
Definition on_snapshot (msgs : loc) (h : heap) (m : mutation) : Prop :=
  target m = msgs \/
  exists items, h !! msgs = Some (PyList items) /\ target m ∈ items.

(** The snapshot is a defensive copy: in a heap with a well-formed
    history, whatever a caller does to the list that [get_messages]
    returned or to an object in it, the history reads as before. *)
Definition defensive_copy : Prop :=
  forall (self : ConversationState) (h h' h'' : heap) (msgs : loc)
         (m : mutation) (r : result unit),
    is_Some (history_value self h) ->
    get_messages self h = (Ok msgs, h') ->
    on_snapshot msgs h' m ->
    mutate m h' = (r, h'') ->
    history_value self h'' = history_value self h.

(** A caller that changes the message it finds at index 1 of a snapshot:
    [s = ConversationState(); s.add_user("hi"); msgs = s.get_messages();
     msgs[1]["content"] = "changed"]. It returns what the history read
    before [get_messages] and what it reads at the end. *)
Definition tamper
  : M heap (option (list (gmap string string)) * option (list (gmap string string))) :=
  self <- init 8 None ;;
  add_user self "hi" ;;;
  before <- gets (history_value self) ;;
  msgs <- get_messages self ;;
  items <- list_items msgs ;;
  match items !! 1%nat with
  | Some m =>
      mutate (DictSetItem m "content" "changed") ;;;
      after <- gets (history_value self) ;;
      ret (before, after)
  | None => raise (IndexError "list index out of range")
  end.

(** The object and the heap of [tamper] after [add_user("hi")]: the deque
    is object 0 and the message is object 1. *)
Definition tamper_self : ConversationState :=
  mkState 8 State.DEFAULT_PROMPT 0%nat.

Definition tamper_heap : heap :=
  <[1%nat := Dict (message_dict "user" "hi")]> (<[0%nat := Deque [1%nat]]> ∅).

(** A computation that leaves every object other than [q] as it is,
    whether it returns or raises; it may create objects. *)
Definition writes_only {A} (q : loc) (m : M heap A) : Prop :=
  forall (h : heap) (l : loc) (o : obj),
    l <> q -> h !! l = Some o -> snd (m h) !! l = Some o.

End Objects.

(* ===================================================================== *)
(** * A scripted world *)
(* ===================================================================== *)

(** A world in which the outcome of every external call is fixed in
    advance and every call is written down, in the manner of the test
    doubles one would use to test the handlers. It gives the classes
    above an instance on which the handlers can be run, and it shows
    which calls a handler makes and how often. *)
Module Scripted.

Import State.

(** An external call and its arguments. *)
Inductive call : Type :=
  | SrRecord (wav_path : string)
  | SrRecognizeGoogle (wav_path : string) (key : option string)
  | WhisperLoadModel (name : string)
  | WhisperTranscribe (name wav_path : string)
  | HttpxPost (timeout : Z) (url : string) (payload : Llm.Payload)
  | HfPipeline (task model : string)
  | HfGenerate (model prompt : string)
  | TtsInit
  | TtsSetRate (rate : Z)
  | TtsGetVoices
  | TtsSetVoice (id : string)
  | TtsSaveToFile (text out_path : string)
  | TtsRunAndWait
  | Mkdtemp
  | Uuid4
  | WriteUpload (path content : string)
  | Rmtree (path : string)
  | ReadText (path : string).

(** The script: the environment, what the Google service, the whisper
    model, the chat service and the text generator answer, the voices of
    the synthesis engine; and the calls made so far, oldest first. *)
Record World : Type := mkWorld {
  environ : list (string * string);
  google : result string;
  whisper : result Asr.WhisperResult;
  http : result (Z * result Llm.ChatData);
  generated : result string;
  voices : list Tts.Voice;
  calls : list call
}.

Definition with_calls (w : World) (cs : list call) : World :=
  mkWorld (environ w) (google w) (whisper w) (http w) (generated w) (voices w) cs.

(** Note the call, then answer. *)
Definition called {A} (c : call) (answer : World -> result A) : M World A :=
  fun w => (answer w, with_calls w (calls w ++ [c])).

Fixpoint assoc (k : string) (kvs : list (string * string)) : option string :=
  match kvs with
  | [] => None
  | (k', v) :: rest => if String.eqb k k' then Some v else assoc k rest
  end.

#[global] Instance scripted_os : Os World :=
  {| os_environ w k := assoc k (environ w) |}.

(** Decimal digits only; anything else is a [ValueError]. *)
Fixpoint digits (acc : Z) (s : string) : option Z :=
  match s with
  | EmptyString => Some acc
  | String c s' =>
      let n := Z.of_N (N_of_ascii c) in
      if ((48 <=? n) && (n <=? 57))%Z then digits (acc * 10 + (n - 48)) s' else None
  end.

#[global] Instance scripted_builtins : Builtins :=
  {| py_int s :=
       match s, digits 0 s with
       | String _ _, Some n => Ok n
       | _, _ => Raise (ValueError "invalid literal for int()")
       end |}.

#[global] Instance scripted_sr : Asr.SpeechRecognition World :=
  {| Asr.Audio := string;
     Asr.sr_record p := called (SrRecord p) (fun _ => Ok p);
     Asr.sr_recognize_google a key := called (SrRecognizeGoogle a key) google |}.

#[global] Instance scripted_whisper : Asr.Whisper World :=
  {| Asr.WhisperModel := string;
     Asr.whisper_load_model name := called (WhisperLoadModel name) (fun _ => Ok name);
     Asr.whisper_transcribe model p := called (WhisperTranscribe model p) whisper |}.

#[global] Instance scripted_httpx : Llm.Httpx World :=
  {| Llm.Response := Z * result Llm.ChatData;
     Llm.httpx_post timeout url payload := called (HttpxPost timeout url payload) http;
     Llm.raise_for_status r :=
       if (400 <=? fst r)%Z then Raise (HTTPStatusError (fst r)) else Ok tt;
     Llm.response_json r := snd r |}.

#[global] Instance scripted_transformers : Llm.Transformers World :=
  {| Llm.Pipeline := string;
     Llm.hf_pipeline task model := called (HfPipeline task model) (fun _ => Ok model);
     Llm.hf_generate gen prompt := called (HfGenerate gen prompt) generated |}.

#[global] Instance scripted_pyttsx3 : Tts.Pyttsx3 World :=
  {| Tts.Engine := unit;
     Tts.pyttsx3_init := called TtsInit (fun _ => Ok tt);
     Tts.set_rate _ rate := called (TtsSetRate rate) (fun _ => Ok tt);
     Tts.get_voices _ := called TtsGetVoices (fun w => Ok (voices w));
     Tts.set_voice _ id := called (TtsSetVoice id) (fun _ => Ok tt);
     Tts.save_to_file _ text out_path := called (TtsSaveToFile text out_path) (fun _ => Ok tt);
     Tts.run_and_wait _ := called TtsRunAndWait (fun _ => Ok tt) |}.

#[global] Instance scripted_files : Main.Files World :=
  {| Main.Upload := string;
     Main.mkdtemp := called Mkdtemp (fun _ => Ok "/tmp/tmpdir");
     Main.uuid4_hex := called Uuid4 (fun _ => Ok "0123abcd");
     Main.write_upload path content := called (WriteUpload path content) (fun _ => Ok tt);
     Main.rmtree_ignore_errors path := called (Rmtree path) (fun _ => Ok tt);
     Main.read_text path := called (ReadText path) (fun _ => Ok "<html></html>") |}.

(** A world with an empty environment in which every service is out of
    reach, and variations of it. *)
Definition offline : World :=
  mkWorld []
    (Raise (RequestError "recognition connection failed"))
    (Raise (LibraryError "whisper"))
    (Raise (LibraryError "ConnectError"))
    (Raise (LibraryError "transformers"))
    []
    [].

Definition with_environ (w : World) (env : list (string * string)) : World :=
  mkWorld env (google w) (whisper w) (http w) (generated w) (voices w) (calls w).

Definition with_google (w : World) (r : result string) : World :=
  mkWorld (environ w) r (whisper w) (http w) (generated w) (voices w) (calls w).

Definition with_whisper (w : World) (r : result Asr.WhisperResult) : World :=
  mkWorld (environ w) (google w) r (http w) (generated w) (voices w) (calls w).

Definition with_http (w : World) (r : result (Z * result Llm.ChatData)) : World :=
  mkWorld (environ w) (google w) (whisper w) r (generated w) (voices w) (calls w).

Definition with_generated (w : World) (r : result string) : World :=
  mkWorld (environ w) (google w) (whisper w) (http w) r (voices w) (calls w).

(** The calls that one call of [chat] on [messages] is expected to make
    in the world [w]: with the in-process backend, the pipeline is built
    and run once on the prompt; otherwise [messages] are posted once. *)
Definition chat_calls (messages : list Message) (w : World) : list call :=
  if String.eqb (lower (default_to "hf" (assoc "LLM_BACKEND" (environ w)))) "hf"
  then
    let model :=
      default_to "TinyLlama/TinyLlama-1.1B-Chat-v1.0" (assoc "HF_MODEL" (environ w)) in
    [HfPipeline "text-generation" model; HfGenerate model (Llm.hf_prompt messages)]
  else
    [HttpxPost 60
       (default_to "http://localhost:11434/api/chat" (assoc "OLLAMA_URL" (environ w)))
       (Llm.mkPayload (default_to "llama3" (assoc "LLM_MODEL" (environ w)))
          messages false)].

(** Worlds and servers used as examples. *)
Definition ollama_says (reply : string) : World :=
  with_http (with_environ offline [("LLM_BACKEND", "ollama")])
    (Ok (200, Ok (Llm.mkChatData (Some (Some reply))))).

Definition silence : Asr.WhisperResult :=
  Asr.mkWhisperResult (Some "") (Some [Asr.mkSegment (Some 0.75%float)]).

Definition google_hears_nothing : World :=
  with_google offline (Raise UnknownValueError).

Definition with_voices (w : World) (vs : list Tts.Voice) : World :=
  mkWorld (environ w) (google w) (whisper w) (http w) (generated w) vs (calls w).

(** ** What a computation adds to the record of calls *)

(** Whatever the script, the computation only adds calls to the record,
    and every call it adds satisfies [P]. *)
Definition appends {A} (P : call -> Prop) (m : M World A) : Prop :=
  forall w, exists new,
    calls (snd (m w)) = (calls w ++ new)%list /\ Forall P new.

Definition handler_appends {A} (P : call -> Prop)
    (m : M (Main.Server World) A) : Prop :=
  forall srv, exists new,
    calls (Main.world (snd (m srv))) = (calls (Main.world srv) ++ new)%list /\
    Forall P new.

(** Any call but the removal of a directory tree. *)
Definition not_rmtree (c : call) : Prop := forall path, c <> Rmtree path.

End Scripted.

(** A world in which no audio file can be read: recording raises. *)
Module Unreadable.

Definition recorder : Asr.SpeechRecognition unit :=
  {| Asr.Audio := unit;
     Asr.sr_record _ := raise (LibraryError "FileNotFoundError");
     Asr.sr_recognize_google _ _ := ret "" |}.

End Unreadable.

(** [int()] on decimal digits with an optional minus sign, for the
    examples that start the server with a negative MAX_TURNS. *)
Module Signed.

Definition builtins : Builtins :=
  {| py_int s :=
       match s with
       | String "-" (String c s') =>
           match Scripted.digits 0 (String c s') with
           | Some n => Ok (- n)
           | None => Raise (ValueError "invalid literal for int()")
           end
       | _ => py_int (Builtins := Scripted.scripted_builtins) s
       end |}.

End Signed.

(* ===================================================================== *)
(** * Properties of the conversation memory *)
(* ===================================================================== *)

Section StateFacts.
Import State.

Lemma newest_length {A} (n : nat) (l : list A) :
  (length (newest n l) <= n)%nat.
Proof. unfold newest. rewrite length_drop. lia. Qed.

Lemma newest_all {A} (n : nat) (l : list A) :
  (length l <= n)%nat -> newest n l = l.
Proof.
  intros Hle. unfold newest.
  replace (length l - n)%nat with 0%nat by lia. reflexivity.
Qed.

Lemma newest_zero {A} (l : list A) : newest 0 l = [].
Proof. unfold newest. rewrite Nat.sub_0_r. apply drop_all. Qed.

(** Trimming a trimmed history that has grown is trimming the grown
    history: what was evicted would be evicted again. *)
Lemma newest_app_newest {A} (n : nat) (l l' : list A) :
  newest n (newest n l ++ l') = newest n (l ++ l').
Proof.
  unfold newest.
  destruct (decide (length l <= n)%nat) as [Hle|Hgt].
  - replace (length l - n)%nat with 0%nat by lia. reflexivity.
  - rewrite length_app, length_drop.
    replace (length l - (length l - n) + length l' - n)%nat
      with (length l')%nat by lia.
    rewrite length_app.
    replace (length l + length l' - n)%nat
      with (length l - n + length l')%nat by lia.
    rewrite <- (drop_drop (l ++ l')).
    f_equal. rewrite drop_app_le by lia. reflexivity.
Qed.

Lemma newest_last {A} (n : nat) (l : list A) (x : A) :
  (1 <= n)%nat -> last (newest n (l ++ [x])) = Some x.
Proof.
  intros Hn. unfold newest. rewrite length_app. simpl.
  rewrite drop_app_le by lia.
  apply last_snoc.
Qed.

(** The loop of [_trim] with a limit that is not negative: it returns,
    having kept the newest [limit] messages. *)
Lemma _trim_loop_newest (limit : Z) (h : list Message) :
  0 <= limit ->
  _trim_loop limit h = (Ok tt, newest (Z.to_nat limit) h).
Proof.
  intros Hlimit. induction h as [|m h IH].
  - cbn [_trim_loop length].
    destruct (Z.gtb_spec (Z.of_nat 0) limit) as [E|E]; [lia|]. reflexivity.
  - cbn [_trim_loop].
    destruct (Z.gtb_spec (Z.of_nat (length (m :: h))) limit) as [E|E].
    + rewrite IH. f_equal. unfold newest. cbn [length] in *.
      replace (S (length h) - Z.to_nat limit)%nat
        with (S (length h - Z.to_nat limit)) by lia.
      reflexivity.
    + rewrite newest_all; [reflexivity|]. cbn [length] in *. lia.
Qed.

(** With a negative limit the loop empties the deque and then raises. *)
Lemma _trim_loop_negative (limit : Z) (h : list Message) :
  limit < 0 ->
  _trim_loop limit h = (Raise (IndexError "pop from an empty deque"), []).
Proof.
  intros Hlimit. induction h as [|m h IH].
  - cbn [_trim_loop length].
    destruct (Z.gtb_spec (Z.of_nat 0) limit) as [E|E]; [reflexivity|lia].
  - cbn [_trim_loop].
    destruct (Z.gtb_spec (Z.of_nat (length (m :: h))) limit) as [E|E];
      [exact IH|lia].
Qed.

Lemma _trim_newest (self : ConversationState) :
  0 <= max_turns self ->
  _trim self
  = (Ok tt, set_history self (newest (Z.to_nat (2 * max_turns self)) (history self))).
Proof.
  intros Hmt. unfold _trim.
  rewrite _trim_loop_newest by lia.
  replace (max_turns self * 2) with (2 * max_turns self) by lia.
  reflexivity.
Qed.

Lemma do_call_newest (c : call) (self : ConversationState) :
  0 <= max_turns self ->
  do_call c self
  = (Ok tt, set_history self
              (newest (Z.to_nat (2 * max_turns self)) (history self ++ [appended c]))).
Proof.
  intros Hmt.
  destruct c; cbn [do_call appended];
    unfold add_user, add_assistant, append, bind, modify;
    rewrite _trim_newest by exact Hmt; reflexivity.
Qed.

(** With a negative [max_turns] every call empties the history and
    raises: the bound [0 <= max_turns] in what follows is needed. *)
Lemma do_call_negative (c : call) (self : ConversationState) :
  max_turns self < 0 ->
  do_call c self
  = (Raise (IndexError "pop from an empty deque"), set_history self []).
Proof.
  intros Hmt.
  destruct c; cbn [do_call];
    unfold add_user, add_assistant, append, bind, modify, _trim;
    cbn [max_turns history set_history];
    rewrite _trim_loop_negative by lia; reflexivity.
Qed.

(** A run of calls on a history within its bound: it returns, and the
    history is the newest part of everything appended so far. *)
Lemma run_newest (cs : list call) (self : ConversationState) :
  0 <= max_turns self ->
  (length (history self) <= Z.to_nat (2 * max_turns self))%nat ->
  run cs self
  = (Ok tt, set_history self
              (newest (Z.to_nat (2 * max_turns self))
                      (history self ++ map appended cs))).
Proof.
  revert self. induction cs as [|c cs IH]; intros self Hmt Hlen.
  - cbn [run map]. rewrite app_nil_r, newest_all by exact Hlen.
    destruct self; reflexivity.
  - cbn [run map]. unfold bind. rewrite do_call_newest by exact Hmt.
    rewrite IH; cbn [max_turns history set_history].
    + unfold set_history; cbn [max_turns system_prompt history].
      rewrite newest_app_newest, <- app_assoc. reflexivity.
    + exact Hmt.
    + apply newest_length.
Qed.

Lemma run_snoc (cs : list call) (c : call) (self : ConversationState) :
  run (cs ++ [c]) self
  = match run cs self with
    | (Ok _, self') => do_call c self'
    | (Raise e, self') => (Raise e, self')
    end.
Proof.
  revert self. induction cs as [|c' cs IH]; intros self.
  - cbn [app run]. unfold bind, ret.
    destruct (do_call c self) as [[[]|e] s]; reflexivity.
  - cbn [app run]. unfold bind.
    destruct (do_call c' self) as [[[]|e] s]; [apply IH|reflexivity].
Qed.

(** No method changes [max_turns] or [system_prompt]. *)
Lemma _trim_config (self : ConversationState) :
  max_turns (snd (_trim self)) = max_turns self /\
  system_prompt (snd (_trim self)) = system_prompt self.
Proof.
  unfold _trim. destruct (_trim_loop _ _) as [r h]. split; reflexivity.
Qed.

Lemma do_call_config (c : call) (self : ConversationState) :
  max_turns (snd (do_call c self)) = max_turns self /\
  system_prompt (snd (do_call c self)) = system_prompt self.
Proof.
  destruct c; cbn [do_call]; unfold add_user, add_assistant, append, bind, modify;
    match goal with |- context [_trim ?s] =>
      pose proof (_trim_config s) as [H1 H2]; destruct (_trim s) as [[[]|e] s']
    end; cbn [snd] in *; split; assumption.
Qed.

Lemma run_config (cs : list call) (self : ConversationState) :
  max_turns (snd (run cs self)) = max_turns self /\
  system_prompt (snd (run cs self)) = system_prompt self.
Proof.
  revert self. induction cs as [|c cs IH]; intros self; [split; reflexivity|].
  cbn [run]. unfold bind.
  pose proof (do_call_config c self) as [H1 H2].
  destruct (do_call c self) as [[[]|e] s]; cbn [snd] in *.
  - destruct (IH s) as [H3 H4]. split; congruence.
  - split; assumption.
Qed.

Lemma run_returns (cs : list call) (self : ConversationState) :
  0 <= max_turns self ->
  exists self', run cs self = (Ok tt, self') /\ max_turns self' = max_turns self.
Proof.
  revert self. induction cs as [|c cs IH]; intros self Hmt.
  - exists self. split; reflexivity.
  - cbn [run]. unfold bind. rewrite do_call_newest by exact Hmt.
    apply (IH (set_history self _)). exact Hmt.
Qed.

(** Whatever the limit, what the loop leaves is the history without some
    of its oldest messages. *)
Lemma _trim_loop_drop (limit : Z) (h : list Message) :
  exists n, snd (_trim_loop limit h) = drop n h.
Proof.
  induction h as [|m h [n IH]].
  - exists 0%nat. cbn [_trim_loop]. destruct (_ >? _); reflexivity.
  - cbn [_trim_loop]. destruct (_ >? _).
    + exists (S n). exact IH.
    + exists 0%nat. reflexivity.
Qed.

Lemma _trim_drop (self : ConversationState) :
  exists n, snd (_trim self) = set_history self (drop n (history self)).
Proof.
  destruct (_trim_loop_drop (max_turns self * 2) (history self)) as [n Hn].
  exists n. unfold _trim. destruct (_trim_loop _ _) as [r h].
  cbn [snd] in *. rewrite Hn. reflexivity.
Qed.

Lemma do_call_drop (c : call) (self : ConversationState) :
  exists n, history (snd (do_call c self)) = drop n (history self ++ [appended c]).
Proof.
  destruct (_trim_drop (set_history self (history self ++ [appended c])))
    as [n Hn].
  exists n.
  destruct c; cbn [do_call appended] in *;
    unfold add_user, add_assistant, append, bind, modify;
    match goal with |- context [_trim ?s] =>
      destruct (_trim s) as [[[]|e] s']
    end; cbn [snd] in *; rewrite Hn; reflexivity.
Qed.

(** In a reachable state the configuration is the constructor's, and no
    stored message has the system role. *)
Lemma reachable_inv (mt : Z) (sp : option string) (self : ConversationState) :
  reachable mt sp self ->
  max_turns self = mt /\
  system_prompt self = or_else sp DEFAULT_PROMPT /\
  Forall (fun m => role m <> "system") (history self).
Proof.
  induction 1 as [|self Hr (Hm & Hs & Hh)|self c Hr (Hm & Hs & Hh)
                  |self Hr IH].
  - repeat split. constructor.
  - repeat split; try assumption. constructor.
  - destruct (do_call_config c self) as [H1 H2].
    destruct (do_call_drop c self) as [n Hn].
    repeat split; [congruence|congruence|].
    rewrite Hn. apply Forall_drop, Forall_app. split; [exact Hh|].
    constructor; [|constructor]. destruct c; cbn; discriminate.
  - exact IH.
Qed.

Lemma count_role_none (r : string) (msgs : list Message) :
  Forall (fun m => role m <> r) msgs -> count_role r msgs = 0%nat.
Proof.
  unfold count_role. induction 1 as [|m msgs Hm _ IH]; [reflexivity|].
  rewrite filter_cons_False by exact Hm. exact IH.
Qed.

(** C1: for every ConversationState with max_turns >= 0 and every
    sequence of add_user/add_assistant calls, each call returns, and
    after it len(history) <= 2 * max_turns; with max_turns = 0 the
    history is then empty. The state after a call is the state after a
    sequence of calls that ends with it. *)
Theorem history_bounded (self : ConversationState) (cs : list call) (c : call) :
  0 <= max_turns self ->
  exists self',
    run (cs ++ [c]) self = (Ok tt, self') /\
    max_turns self' = max_turns self /\
    Z.of_nat (length (history self')) <= 2 * max_turns self /\
    (max_turns self = 0 -> length (history self') = 0%nat).
Proof.
  intros Hmt.
  destruct (run_returns cs self Hmt) as (s1 & Hrun & Hmt1).
  rewrite run_snoc, Hrun, do_call_newest by lia.
  eexists. split; [reflexivity|].
  cbn [set_history max_turns history]. rewrite Hmt1.
  pose proof (newest_length (Z.to_nat (2 * max_turns self))
                (history s1 ++ [appended c])) as Hlen.
  set (len := length _) in *. clearbody len.
  repeat split; lia.
Qed.

Lemma history_bounded_witness :
  exists self',
    run ([AddUser "a"; AddAssistant "b"] ++ [AddUser "c"]) (init 1 None)
    = (Ok tt, self') /\
    max_turns self' = 1 /\
    Z.of_nat (length (history self')) <= 2 * 1 /\
    (1 = 0 -> length (history self') = 0%nat).
Proof.
  apply (history_bounded (init 1 None) [AddUser "a"; AddAssistant "b"] (AddUser "c")).
  cbn. lia.
Defined.

Lemma snapshot_ends_with_user_from (x : string) (self : ConversationState) :
  1 <= max_turns self -> snapshot_ends_with_user x self.
Proof.
  intros Hmt. unfold snapshot_ends_with_user.
  pose proof (do_call_newest (AddUser x) self ltac:(lia)) as Hcall.
  cbn [do_call appended] in Hcall. rewrite Hcall.
  eexists _, _. split; [reflexivity|]. split; [reflexivity|].
  cbn [set_history system_prompt history].
  rewrite last_cons, newest_last by lia. reflexivity.
Qed.

(** C2, as the code has it: trimming only ever drops oldest messages;
    for max_turns >= 0, every sequence of add_user/add_assistant calls
    on a new ConversationState returns and leaves as history exactly the
    newest 2*max_turns appended messages, in append order; the scenario
    with max_turns = 2 leaves [assistant b1, user a2, assistant b2,
    user a3]; and for max_turns >= 1, in any state, the snapshot taken
    right after add_user(x) ends with the user message x. *)
Theorem history_is_newest (mt : Z) (sp : option string) (cs : list call) :
  0 <= mt ->
  (forall self, exists n, snd (_trim self) = set_history self (drop n (history self))) /\
  run cs (init mt sp)
  = (Ok tt, set_history (init mt sp)
              (newest (Z.to_nat (2 * mt)) (map appended cs))) /\
  run scenario_calls (init 2 sp)
  = (Ok tt, set_history (init 2 sp) scenario_history) /\
  (forall self x,
      reachable mt sp self -> 1 <= mt -> snapshot_ends_with_user x self).
Proof.
  intros Hmt. split; [exact _trim_drop|]. split; [|split].
  - apply (run_newest cs (init mt sp)); cbn; lia.
  - reflexivity.
  - intros self x Hr Hmt1. apply snapshot_ends_with_user_from.
    destruct (reachable_inv _ _ _ Hr) as [-> _]. exact Hmt1.
Qed.

Lemma history_is_newest_witness :
  run [AddUser "a"; AddAssistant "b"; AddUser "c"] (init 1 None)
  = (Ok tt, set_history (init 1 None) [assistant_msg "b"; user_msg "c"]) /\
  snapshot_ends_with_user "x" (init 1 None).
Proof.
  destruct (history_is_newest 1 None [AddUser "a"; AddAssistant "b"; AddUser "c"])
    as (_ & Hrun & _ & Hlast); [lia|].
  split; [exact Hrun|].
  apply Hlast; [constructor|lia].
Defined.

(** C2 as stated fails without memory: with max_turns = 0 the snapshot
    taken right after add_user("x") is the system message alone. *)
Lemma snapshot_without_memory :
  add_user "x" (init 0 None) = (Ok tt, init 0 None) /\
  get_messages (init 0 None) = (Ok [system_msg DEFAULT_PROMPT], init 0 None) /\
  ~ snapshot_ends_with_user "x" (init 0 None).
Proof.
  split; [reflexivity|]. split; [reflexivity|].
  intros (self' & msgs & Hadd & Hget & Hlast).
  change (add_user "x" (init 0 None)) with (Ok tt, init 0 None) in Hadd.
  injection Hadd as <-.
  change (get_messages (init 0 None))
    with (Ok [system_msg DEFAULT_PROMPT], init 0 None) in Hget.
  injection Hget as <-.
  cbn in Hlast. discriminate Hlast.
Qed.

(** C5: in every state a ConversationState can be in, get_messages
    returns the system message, with the configured or else the default
    prompt, followed by the whole history in order, and leaves the state
    as it is; the system message is the only message of the snapshot
    with the system role; on the empty history the snapshot is the
    system message alone. *)
Theorem snapshot_system_first (mt : Z) (sp : option string)
    (self : ConversationState) :
  reachable mt sp self ->
  get_messages self
  = (Ok (system_msg (or_else sp DEFAULT_PROMPT) :: history self), self) /\
  count_role "system" (system_msg (or_else sp DEFAULT_PROMPT) :: history self)
  = 1%nat /\
  get_messages (init mt sp)
  = (Ok [system_msg (or_else sp DEFAULT_PROMPT)], init mt sp).
Proof.
  intros Hr. destruct (reachable_inv _ _ _ Hr) as (Hm & Hs & Hh).
  split; [|split].
  - unfold get_messages, bind, get, ret. rewrite Hs. reflexivity.
  - unfold count_role. rewrite filter_cons_True by reflexivity.
    cbn [length]. f_equal. apply (count_role_none "system"). exact Hh.
  - reflexivity.
Qed.

Lemma snapshot_system_first_witness :
  get_messages (snd (do_call (AddUser "hi") (init 8 (Some "Be brief."))))
  = (Ok [system_msg "Be brief."; user_msg "hi"],
     snd (do_call (AddUser "hi") (init 8 (Some "Be brief.")))).
Proof.
  apply (snapshot_system_first 8 (Some "Be brief.")
           (snd (do_call (AddUser "hi") (init 8 (Some "Be brief."))))).
  apply reach_call, reach_init.
Defined.

End StateFacts.

(* ===================================================================== *)
(** * Properties of the speech-to-text dispatch *)
(* ===================================================================== *)

Section StringFacts.

Lemma N_of_ascii_inj (a b : ascii) : N_of_ascii a = N_of_ascii b -> a = b.
Proof.
  intros H. rewrite <- (ascii_N_embedding a), <- (ascii_N_embedding b).
  f_equal. exact H.
Qed.

(** Lowering a character gives [b], a character that is not a capital,
    exactly when the character and [b] differ at most in case. *)
Lemma lower_ascii_same_letter (a b : ascii) :
  ((65 <=? N_of_ascii b) && (N_of_ascii b <=? 90))%N = false ->
  lower_ascii a = b <-> same_letter a b = true.
Proof.
  intros Hb. unfold lower_ascii, same_letter.
  pose proof (N_ascii_bounded a) as Ha.
  apply andb_false_iff in Hb. rewrite !N.leb_gt in Hb.
  rewrite !orb_true_iff, !andb_true_iff, !N.leb_le, !N.eqb_eq.
  destruct ((65 <=? N_of_ascii a) && (N_of_ascii a <=? 90))%N eqn:Hup.
  - apply andb_true_iff in Hup as [H1 H2]. apply N.leb_le in H1, H2.
    split.
    + intros <-. rewrite N_ascii_embedding by lia. lia.
    + intros H. apply N_of_ascii_inj. rewrite N_ascii_embedding by lia. lia.
  - apply andb_false_iff in Hup. rewrite !N.leb_gt in Hup.
    split.
    + intros <-. lia.
    + intros H. apply N_of_ascii_inj. lia.
Qed.

Lemma lower_same_ignoring_case (s t : string) :
  no_capitals t = true ->
  lower s = t <-> same_ignoring_case s t = true.
Proof.
  revert t. induction s as [|a s IH]; intros [|b t] Ht; cbn [lower same_ignoring_case];
    try (split; [discriminate|discriminate]); [split; reflexivity|].
  cbn [no_capitals] in Ht. apply andb_true_iff in Ht as [Hb Ht].
  apply negb_true_iff in Hb.
  rewrite andb_true_iff, <- (IH t Ht), <- (lower_ascii_same_letter a b Hb).
  split; [intros [= H1 H2]; split; assumption|intros [-> ->]; reflexivity].
Qed.

End StringFacts.

Section AsrFacts.
Context {W : Type} `{!Asr.SpeechRecognition W} `{!Asr.Whisper W}.
Import Asr.

Lemma lower_engine_google (engine : option string) :
  String.eqb (lower (or_else engine "whisper")) "google" = names_google engine.
Proof.
  destruct engine as [[|c e]|]; [reflexivity| |reflexivity].
  cbn [or_else names_google].
  destruct (same_ignoring_case (String c e) "google") eqn:E.
  - apply String.eqb_eq. apply lower_same_ignoring_case; [reflexivity|exact E].
  - apply String.eqb_neq. intros Hl.
    apply lower_same_ignoring_case in Hl; [congruence|reflexivity].
Qed.

Lemma transcribe_engine (wav_path : string) (engine api_key : option string) :
  transcribe wav_path engine api_key
  = if names_google engine then transcribe_google wav_path api_key
    else transcribe_whisper wav_path "base".
Proof.
  unfold transcribe. rewrite lower_engine_google. reflexivity.
Qed.

(** C9: transcribe never fails on the engine identifier: the Google
    engine is used exactly when the identifier is given and is google
    compared case-insensitively; for every other string, the empty
    string included, and for None, the whisper engine with the base
    model is used. *)
Theorem transcribe_dispatch (wav_path : string) (engine api_key : option string) :
  (names_google engine = true <->
   exists e, engine = Some e /\ same_ignoring_case e "google" = true) /\
  transcribe wav_path engine api_key
  = if names_google engine then transcribe_google wav_path api_key
    else transcribe_whisper wav_path "base".
Proof.
  split; [|apply transcribe_engine].
  destruct engine as [e|]; cbn [names_google].
  - split; [intros He; exists e; split; [reflexivity|exact He]|].
    intros (e' & [= <-] & He). exact He.
  - split; [discriminate|]. intros (e' & [=] & _).
Qed.

Lemma transcribe_google_no_speech wav_path api_key (w w1 w2 : W) audio :
  sr_record wav_path w = (Ok audio, w1) ->
  sr_recognize_google audio api_key w1 = (Raise UnknownValueError, w2) ->
  transcribe_google wav_path api_key w = (Ok ("", 0%float), w2).
Proof.
  intros Hrec Hgoogle. unfold transcribe_google, bind, try.
  rewrite Hrec, Hgoogle. reflexivity.
Qed.

Lemma transcribe_google_request_error wav_path api_key (w w1 w2 : W) audio msg :
  sr_record wav_path w = (Ok audio, w1) ->
  sr_recognize_google audio api_key w1 = (Raise (RequestError msg), w2) ->
  transcribe_google wav_path api_key w
  = (Raise (RuntimeError ("Google ASR request error: " +:+ msg)), w2).
Proof.
  intros Hrec Hgoogle. unfold transcribe_google, bind, try.
  rewrite Hrec, Hgoogle. reflexivity.
Qed.

Lemma transcribe_google_text wav_path api_key (w w1 w2 : W) audio text :
  sr_record wav_path w = (Ok audio, w1) ->
  sr_recognize_google audio api_key w1 = (Ok text, w2) ->
  transcribe_google wav_path api_key w = (Ok (text, 0.8%float), w2).
Proof.
  intros Hrec Hgoogle. unfold transcribe_google, bind, try.
  rewrite Hrec, Hgoogle. reflexivity.
Qed.

Lemma transcribe_whisper_no_text wav_path name (w w1 w2 : W) model r p :
  whisper_load_model name w = (Ok model, w1) ->
  whisper_transcribe model wav_path w1 = (Ok r, w2) ->
  no_text r ->
  first_no_speech_prob r = Ok p ->
  transcribe_whisper wav_path name w = (Ok ("", (1 - p)%float), w2).
Proof.
  intros Hload Hrun Htext Hp. unfold transcribe_whisper, bind.
  rewrite Hload, Hrun, Hp, Htext. reflexivity.
Qed.

End AsrFacts.

Section ScriptedAsrFacts.
Import Asr Scripted.

(** One transcription with the Google engine is one recording and one
    recognition request, whatever the service answers. *)
Lemma transcribe_google_calls (wav_path : string) (api_key : option string)
    (w : World) :
  calls (snd (transcribe_google wav_path api_key w))
  = (calls w ++ [SrRecord wav_path; SrRecognizeGoogle wav_path api_key])%list.
Proof.
  unfold transcribe_google, bind, try. cbn.
  destruct (google w) as [text|e]; cbn.
  - rewrite <- app_assoc. reflexivity.
  - destruct e; cbn; rewrite <- app_assoc; reflexivity.
Qed.

Example dispatch_google :
  names_google (Some "GooGle") = true /\
  names_google (Some "google ") = false /\
  names_google (Some "bing") = false /\
  names_google (Some "") = false /\
  names_google None = false.
Proof. repeat split. Qed.

End ScriptedAsrFacts.

(* ===================================================================== *)
(** * Properties of the reply backends *)
(* ===================================================================== *)

Section LlmFacts.
Context {W : Type} `{!Os W} `{!Llm.Httpx W} `{!Llm.Transformers W}.
Import State Llm.

Lemma hf_prompt_loop_filter (prompt : string) (messages : list Message) :
  hf_prompt_loop prompt messages
  = hf_prompt_loop prompt (filter (fun m => role m <> "system") messages).
Proof.
  revert prompt. induction messages as [|m messages IH]; intros prompt;
    [reflexivity|].
  cbn [hf_prompt_loop].
  destruct (String.eqb_spec (role m) "system") as [Hsys|Hsys].
  - rewrite filter_cons_False by (intros Hne; exact (Hne Hsys)). apply IH.
  - rewrite filter_cons_True by exact Hsys.
    cbn [hf_prompt_loop].
    destruct (String.eqb_spec (role m) "system") as [Hsys'|_]; [contradiction|].
    apply IH.
Qed.

Lemma hf_prompt_system (p : string) (messages : list Message) :
  hf_prompt (system_msg p :: messages) = hf_prompt messages.
Proof. reflexivity. Qed.

Lemma chat_selects_hf (messages : list Message) (w : W) :
  selects_hf w ->
  chat messages w
  = chat_hf messages
      (default_to "TinyLlama/TinyLlama-1.1B-Chat-v1.0" (os_environ w "HF_MODEL")) w.
Proof.
  unfold selects_hf. intros Hhf.
  unfold chat, bind, environ_get, gets. rewrite Hhf. reflexivity.
Qed.

Lemma chat_hf_prompt (m1 m2 : list Message) (model : string) (w : W) :
  hf_prompt m1 = hf_prompt m2 -> chat_hf m1 model w = chat_hf m2 model w.
Proof. intros Hp. unfold chat_hf. rewrite Hp. reflexivity. Qed.

(** C10: the prompt that chat_hf builds for a message list is the prompt
    for the list without its system messages; chat, when LLM_BACKEND is
    unset, is chat_hf (with the model named by HF_MODEL or else the
    default one); and with that backend selected, unset or named, chat
    has the same outcome on message lists that differ in system messages
    only, so the outcome on a snapshot is the same whatever the system
    prompt of the ConversationState. *)
Theorem hf_ignores_system_prompt (messages : list Message) (w : W) :
  hf_prompt messages = hf_prompt (filter (fun m => role m <> "system") messages) /\
  (os_environ w "LLM_BACKEND" = None ->
   selects_hf w /\
   chat messages w
   = chat_hf messages
       (default_to "TinyLlama/TinyLlama-1.1B-Chat-v1.0" (os_environ w "HF_MODEL")) w) /\
  (selects_hf w ->
   (forall messages',
       filter (fun m => role m <> "system") messages'
       = filter (fun m => role m <> "system") messages ->
       chat messages' w = chat messages w) /\
   (forall (self : ConversationState) (p : string),
       chat (system_msg (system_prompt self) :: history self) w
       = chat (system_msg p :: history self) w)).
Proof.
  split; [|split].
  - unfold hf_prompt. rewrite hf_prompt_loop_filter. reflexivity.
  - intros Hunset.
    assert (selects_hf w) as Hhf by (unfold selects_hf; rewrite Hunset; reflexivity).
    split; [exact Hhf|]. apply chat_selects_hf. exact Hhf.
  - intros Hhf. split.
    + intros messages' Hsame. rewrite !chat_selects_hf by exact Hhf.
      apply chat_hf_prompt. unfold hf_prompt.
      rewrite (hf_prompt_loop_filter _ messages'), Hsame,
        <- hf_prompt_loop_filter.
      reflexivity.
    + intros self p. rewrite !chat_selects_hf by exact Hhf.
      apply chat_hf_prompt. rewrite !hf_prompt_system. reflexivity.
Qed.

(** The chat service out of reach, or answering with an error status:
    chat_ollama raises. *)
Lemma chat_ollama_unreachable (messages : list Message) (model : string)
    (w w' : W) (e : exn) :
  httpx_post 60
    (default_to "http://localhost:11434/api/chat" (os_environ w "OLLAMA_URL"))
    (mkPayload model messages false) w = (Raise e, w') ->
  chat_ollama messages model w = (Raise e, w').
Proof.
  intros Hpost. unfold chat_ollama, bind, environ_get, gets.
  rewrite Hpost. reflexivity.
Qed.

Lemma chat_ollama_error_status (messages : list Message) (model : string)
    (w w' : W) (r : Response) (e : exn) :
  httpx_post 60
    (default_to "http://localhost:11434/api/chat" (os_environ w "OLLAMA_URL"))
    (mkPayload model messages false) w = (Ok r, w') ->
  raise_for_status r = Raise e ->
  chat_ollama messages model w = (Raise e, w').
Proof.
  intros Hpost Hstatus. unfold chat_ollama, bind, environ_get, gets, lift.
  rewrite Hpost, Hstatus. reflexivity.
Qed.

End LlmFacts.

(* ===================================================================== *)
(** * Properties of the request handlers *)
(* ===================================================================== *)

Section HandlerFacts.
Context {W : Type} `{!Os W} `{!Builtins} `{!Main.Files W}
  `{!Asr.SpeechRecognition W} `{!Asr.Whisper W}
  `{!Llm.Httpx W} `{!Llm.Transformers W} `{!Tts.Pyttsx3 W}.
Import State Main.

Lemma keeps_state_on_world {A} (m : M W A) : keeps_state (on_world m).
Proof. intros srv. unfold on_world. destruct (m (world srv)). reflexivity. Qed.

Lemma keeps_state_ret {A} (a : A) : keeps_state (W := W) (ret a).
Proof. intros srv. reflexivity. Qed.

Lemma keeps_state_bind {A B} (m : M (Server W) A) (k : A -> M (Server W) B) :
  keeps_state m -> (forall a, keeps_state (k a)) -> keeps_state (bind m k).
Proof.
  intros Hm Hk srv. unfold bind.
  specialize (Hm srv). destruct (m srv) as [[a|e] srv']; cbn [snd] in *.
  - rewrite Hk. exact Hm.
  - exact Hm.
Qed.

Ltac keeps_state :=
  repeat first
    [ apply keeps_state_on_world
    | apply keeps_state_ret
    | apply keeps_state_bind; [|intros ?] ].

Lemma asr_endpoint_keeps_state engine file : keeps_state (asr_endpoint engine file).
Proof. unfold asr_endpoint. keeps_state. Qed.

Lemma speak_endpoint_keeps_state text : keeps_state (speak_endpoint text).
Proof. unfold speak_endpoint. keeps_state. Qed.

Lemma home_keeps_state : keeps_state home.
Proof. unfold home. keeps_state. Qed.

(** The state after [add_user] in a handler, and the snapshot taken then. *)
Lemma on_state_add_user (text : string) (srv : Server W) :
  0 <= max_turns (state srv) ->
  on_state (add_user text) srv
  = (Ok tt,
     mkServer
       (set_history (state srv)
          (newest (Z.to_nat (2 * max_turns (state srv)))
                  (history (state srv) ++ [user_msg text])))
       (world srv)).
Proof.
  intros Hmt. unfold on_state.
  pose proof (do_call_newest (AddUser text) (state srv) Hmt) as Hcall.
  cbn [do_call appended] in Hcall. rewrite Hcall. reflexivity.
Qed.

Lemma on_state_add_assistant (text : string) (srv : Server W) :
  0 <= max_turns (state srv) ->
  on_state (add_assistant text) srv
  = (Ok tt,
     mkServer
       (set_history (state srv)
          (newest (Z.to_nat (2 * max_turns (state srv)))
                  (history (state srv) ++ [assistant_msg text])))
       (world srv)).
Proof.
  intros Hmt. unfold on_state.
  pose proof (do_call_newest (AddAssistant text) (state srv) Hmt) as Hcall.
  cbn [do_call appended] in Hcall. rewrite Hcall. reflexivity.
Qed.

(** [reply_endpoint] up to the call of [chat]: the user message is
    appended, and [chat] runs on the snapshot taken then. *)
Lemma reply_endpoint_chat (text : string) (srv : Server W) :
  0 <= max_turns (state srv) ->
  let s1 := set_history (state srv)
              (newest (Z.to_nat (2 * max_turns (state srv)))
                      (history (state srv) ++ [user_msg text])) in
  reply_endpoint text srv
  = match Llm.chat (system_msg (system_prompt s1) :: history s1) (world srv) with
    | (Ok reply, w') =>
        (Ok (JsonReply reply),
         mkServer
           (set_history s1
              (newest (Z.to_nat (2 * max_turns s1))
                      (history s1 ++ [assistant_msg reply])))
           w')
    | (Raise e, w') => (Raise e, mkServer s1 w')
    end.
Proof.
  intros Hmt s1. unfold reply_endpoint.
  unfold bind at 1. rewrite on_state_add_user by exact Hmt. fold s1.
  unfold bind at 1. unfold on_state at 1. cbn [get_messages state world].
  unfold bind at 1. unfold on_world at 1. cbn [state world].
  unfold get_messages, get, bind at 1, ret at 1. cbn [state world].
  destruct (Llm.chat _ (world srv)) as [[reply|e] w']; [|reflexivity].
  unfold bind at 1. rewrite on_state_add_assistant by exact Hmt.
  reflexivity.
Qed.

End HandlerFacts.

Section ScriptedHandlerFacts.
Import State Main Scripted.

(** In the scripted world one call of [chat] makes the calls of
    [chat_calls], whatever the backend answers. *)
Lemma chat_makes_chat_calls (messages : list Message) (w : World) :
  calls (snd (Llm.chat messages w)) = (calls w ++ chat_calls messages w)%list.
Proof.
  unfold Llm.chat, chat_calls, bind, environ_get, gets. cbn.
  destruct (String.eqb _ "hf").
  - unfold Llm.chat_hf, bind. cbn.
    destruct (generated w); cbn; rewrite <- app_assoc; reflexivity.
  - unfold Llm.chat_ollama, bind, environ_get, gets, lift. cbn.
    destruct (http w) as [[status [data|e]]|e]; cbn;
      try destruct (400 <=? status)%Z; reflexivity.
Qed.

Lemma reply_endpoint_calls (text : string) (srv : Server World) :
  0 <= max_turns (state srv) ->
  let s1 := set_history (state srv)
              (newest (Z.to_nat (2 * max_turns (state srv)))
                      (history (state srv) ++ [user_msg text])) in
  calls (world (snd (reply_endpoint text srv)))
  = (calls (world srv)
     ++ chat_calls (system_msg (system_prompt s1) :: history s1) (world srv))%list.
Proof.
  intros Hmt s1. rewrite reply_endpoint_chat by exact Hmt. fold s1.
  rewrite <- chat_makes_chat_calls.
  destruct (Llm.chat _ (world srv)) as [[reply|e] w']; reflexivity.
Qed.

End ScriptedHandlerFacts.

Section HandlerTheorems.
Context {W : Type} `{!Os W} `{!Builtins} `{!Main.Files W}
  `{!Asr.SpeechRecognition W} `{!Asr.Whisper W}
  `{!Llm.Httpx W} `{!Llm.Transformers W} `{!Tts.Pyttsx3 W}.
Import State Main.

(** The handler of [/transcribe] lets an exception of [transcribe]
    through to its caller. *)
Lemma asr_endpoint_raises (engine : string) (file : Upload) (srv : Server W)
    (tmp hex : string) (w1 w2 w3 w4 : W) (e : exn) :
  mkdtemp (world srv) = (Ok tmp, w1) ->
  uuid4_hex w1 = (Ok hex, w2) ->
  write_upload (tmp +:+ "/" +:+ "in_" +:+ hex +:+ ".wav") file w2 = (Ok tt, w3) ->
  Asr.transcribe (tmp +:+ "/" +:+ "in_" +:+ hex +:+ ".wav") (Some engine)
    (os_environ w3 "GOOGLE_SPEECH_API_KEY") w3 = (Raise e, w4) ->
  asr_endpoint engine file srv = (Raise e, mkServer (state srv) w4).
Proof.
  intros Htmp Hhex Hwrite Htranscribe.
  unfold asr_endpoint, bind, on_world, environ_get_opt, gets.
  rewrite Htmp. cbn [state world]. rewrite Hhex. cbn [state world].
  rewrite Hwrite. cbn [state world]. rewrite Htranscribe. reflexivity.
Qed.

(** C3: reply_endpoint (handle_reply) appends the user message, takes
    the snapshot, calls chat on that snapshot, appends what chat returns
    as an assistant message and returns it; in the scripted world the
    calls it makes are those of one chat call on that snapshot; and the
    handlers of /transcribe, /speak and / leave the conversation as it
    is, whether they return or raise. *)
Theorem reply_endpoint_sequence (text : string) (srv : Server W) :
  0 <= max_turns (state srv) ->
  let limit := Z.to_nat (2 * max_turns (state srv)) in
  let s1 := set_history (state srv)
              (newest limit (history (state srv) ++ [user_msg text])) in
  let snapshot := system_msg (system_prompt (state srv)) :: history s1 in
  on_state (add_user text) srv = (Ok tt, mkServer s1 (world srv)) /\
  on_state get_messages (mkServer s1 (world srv))
  = (Ok snapshot, mkServer s1 (world srv)) /\
  (forall reply w',
      Llm.chat snapshot (world srv) = (Ok reply, w') ->
      reply_endpoint text srv
      = (Ok (JsonReply reply),
         mkServer
           (set_history s1 (newest limit (history s1 ++ [assistant_msg reply])))
           w')) /\
  (forall engine file, keeps_state (asr_endpoint engine file)) /\
  (forall text', keeps_state (speak_endpoint text')) /\
  keeps_state home /\
  (forall srv' : Server Scripted.World,
      0 <= max_turns (state srv') ->
      Scripted.calls (world (snd (reply_endpoint text srv')))
      = (Scripted.calls (world srv')
         ++ Scripted.chat_calls
              (system_msg (system_prompt (state srv'))
               :: newest (Z.to_nat (2 * max_turns (state srv')))
                    (history (state srv') ++ [user_msg text]))
              (world srv'))%list).
Proof.
  intros Hmt limit s1 snapshot.
  split; [apply on_state_add_user; exact Hmt|].
  split; [reflexivity|].
  split.
  { intros reply w' Hchat.
    pose proof (reply_endpoint_chat text srv Hmt) as Hreply.
    cbv zeta in Hreply. unfold snapshot, s1, limit in *.
    cbn [set_history system_prompt history max_turns] in *.
    rewrite Hreply, Hchat. reflexivity. }
  split; [intros; apply asr_endpoint_keeps_state|].
  split; [intros; apply speak_endpoint_keeps_state|].
  split; [apply home_keeps_state|].
  intros srv' Hmt'. apply reply_endpoint_calls. exact Hmt'.
Qed.

(** C4, as the code has it: when chat raises during reply_endpoint, the
    exception reaches the caller and the conversation is left exactly as
    add_user left it: nothing is rolled back and no assistant message is
    appended. For max_turns >= 1 the user message is then the last
    message of the history. *)
Theorem reply_failure_no_rollback (text : string) (srv : Server W)
    (e : exn) (w' : W) :
  0 <= max_turns (state srv) ->
  let s1 := snd (add_user text (state srv)) in
  Llm.chat (system_msg (system_prompt s1) :: history s1) (world srv)
  = (Raise e, w') ->
  reply_endpoint text srv = (Raise e, mkServer s1 w') /\
  history s1
  = newest (Z.to_nat (2 * max_turns (state srv)))
      (history (state srv) ++ [user_msg text]) /\
  (1 <= max_turns (state srv) -> last (history s1) = Some (user_msg text)).
Proof.
  intros Hmt s1 Hchat.
  pose proof (do_call_newest (AddUser text) (state srv) Hmt) as Hcall.
  cbn [do_call appended] in Hcall.
  assert (s1 = set_history (state srv)
                 (newest (Z.to_nat (2 * max_turns (state srv)))
                         (history (state srv) ++ [user_msg text]))) as Hs1
    by (unfold s1; rewrite Hcall; reflexivity).
  clearbody s1. subst s1.
  split; [|split].
  - pose proof (reply_endpoint_chat text srv Hmt) as Hreply.
    cbv zeta in Hreply. rewrite Hreply, Hchat. reflexivity.
  - reflexivity.
  - intros Hmt1. cbn [set_history history]. apply newest_last. lia.
Qed.

(** C8, as the code has it. With the Google engine: unintelligible
    speech (UnknownValueError) gives ("", 0.0) and no exception; a failed
    request (RequestError) gives a RuntimeError, which the handler of
    /transcribe lets through to its caller; and one transcription makes
    one recognition request. With the whisper engine: a result without
    text whose no-speech probability can be read gives "" with one minus
    that probability as confidence. *)
Theorem transcription_failures (wav_path : string) (engine api_key : option string)
    (w : W) :
  (Asr.names_google engine = true ->
   forall audio w1 w2,
     Asr.sr_record wav_path w = (Ok audio, w1) ->
     (Asr.sr_recognize_google audio api_key w1 = (Raise UnknownValueError, w2) ->
      Asr.transcribe wav_path engine api_key w = (Ok ("", 0%float), w2)) /\
     (forall msg,
         Asr.sr_recognize_google audio api_key w1 = (Raise (RequestError msg), w2) ->
         Asr.transcribe wav_path engine api_key w
         = (Raise (RuntimeError ("Google ASR request error: " +:+ msg)), w2))) /\
  (Asr.names_google engine = false ->
   forall model w1 r w2 p,
     Asr.whisper_load_model "base" w = (Ok model, w1) ->
     Asr.whisper_transcribe model wav_path w1 = (Ok r, w2) ->
     Asr.no_text r ->
     Asr.first_no_speech_prob r = Ok p ->
     Asr.transcribe wav_path engine api_key w = (Ok ("", (1 - p)%float), w2)) /\
  (forall (srv : Server W) eng file tmp hex w1 w2 w3 w4 e,
      mkdtemp (world srv) = (Ok tmp, w1) ->
      uuid4_hex w1 = (Ok hex, w2) ->
      write_upload (tmp +:+ "/" +:+ "in_" +:+ hex +:+ ".wav") file w2 = (Ok tt, w3) ->
      Asr.transcribe (tmp +:+ "/" +:+ "in_" +:+ hex +:+ ".wav") (Some eng)
        (os_environ w3 "GOOGLE_SPEECH_API_KEY") w3 = (Raise e, w4) ->
      asr_endpoint eng file srv = (Raise e, mkServer (state srv) w4)) /\
  (forall sw : Scripted.World,
      Scripted.calls (snd (Asr.transcribe_google wav_path api_key sw))
      = (Scripted.calls sw
         ++ [Scripted.SrRecord wav_path;
             Scripted.SrRecognizeGoogle wav_path api_key])%list).
Proof.
  split; [|split; [|split]].
  - intros Hg audio w1 w2 Hrec. rewrite transcribe_engine, Hg. split.
    + apply transcribe_google_no_speech. exact Hrec.
    + intros msg. apply transcribe_google_request_error. exact Hrec.
  - intros Hg model w1 r w2 p Hload Hrun Htext Hp.
    rewrite transcribe_engine, Hg.
    exact (transcribe_whisper_no_text _ _ _ _ _ _ _ _ Hload Hrun Htext Hp).
  - intros srv eng file tmp hex w1 w2 w3 w4 e. apply asr_endpoint_raises.
  - intros sw. apply transcribe_google_calls.
Qed.

(** C7: reset always returns; it empties the history and leaves
    max_turns and the system prompt as they are; resetting twice gives
    the state that resetting once gives. The same holds of the handler
    of /reset, which answers ok and leaves the world as it is. *)
Theorem reset_idempotent (self : ConversationState) (srv : Server W) :
  State.reset self = (Ok tt, set_history self []) /\
  (State.reset ;;; State.reset) self = State.reset self /\
  history (snd (State.reset self)) = [] /\
  max_turns (snd (State.reset self)) = max_turns self /\
  system_prompt (snd (State.reset self)) = system_prompt self /\
  Main.reset srv
  = (Ok (JsonOk true), mkServer (set_history (state srv) []) (world srv)) /\
  (Main.reset ;;; Main.reset) srv = Main.reset srv.
Proof. repeat split. Qed.

End HandlerTheorems.

(* ===================================================================== *)
(** * The handlers in the scripted world *)
(* ===================================================================== *)

Section ScriptedExamples.
Import State Main.

Lemma reply_endpoint_sequence_witness :
  reply_endpoint "hi" (mkServer (init 8 None) (Scripted.ollama_says "Hello!"))
  = (Ok (JsonReply "Hello!"),
     mkServer
       (set_history (init 8 None) [user_msg "hi"; assistant_msg "Hello!"])
       (snd (Llm.chat [system_msg DEFAULT_PROMPT; user_msg "hi"]
               (Scripted.ollama_says "Hello!")))).
Proof.
  destruct (reply_endpoint_sequence "hi"
              (mkServer (init 8 None) (Scripted.ollama_says "Hello!")))
    as (_ & _ & Hreply & _); [cbn; lia|].
  apply (Hreply "Hello!"). reflexivity.
Defined.

Lemma reply_failure_no_rollback_witness :
  reply_endpoint "hi" (mkServer (init 8 None) Scripted.offline)
  = (Raise (LibraryError "transformers"),
     mkServer (set_history (init 8 None) [user_msg "hi"])
       (snd (Llm.chat [system_msg DEFAULT_PROMPT; user_msg "hi"] Scripted.offline)))
  /\ last [user_msg "hi"] = Some (user_msg "hi").
Proof.
  destruct (reply_failure_no_rollback "hi" (mkServer (init 8 None) Scripted.offline)
              (LibraryError "transformers")
              (snd (Llm.chat [system_msg DEFAULT_PROMPT; user_msg "hi"]
                      Scripted.offline)))
    as (Hreply & _ & Hlast); [cbn; lia|reflexivity|].
  split; [exact Hreply|]. apply Hlast. cbn. lia.
Defined.

(** C4 as stated fails without memory: with max_turns = 0 the history is
    empty after a failed reply, so the user message is not in it. *)
Lemma reply_failure_without_memory :
  fst (reply_endpoint "x" (mkServer (init 0 None) Scripted.offline))
  = Raise (LibraryError "transformers") /\
  history (state (snd (reply_endpoint "x" (mkServer (init 0 None) Scripted.offline))))
  = [] /\
  ~ In (user_msg "x")
      (history (state (snd (reply_endpoint "x"
                              (mkServer (init 0 None) Scripted.offline))))).
Proof.
  split; [reflexivity|]. split; [reflexivity|].
  intros Hin. exact Hin.
Qed.

Lemma transcription_failures_witness :
  Asr.transcribe "in.wav" (Some "Google") None Scripted.google_hears_nothing
  = (Ok ("", 0%float),
     Scripted.with_calls Scripted.google_hears_nothing
       [Scripted.SrRecord "in.wav"; Scripted.SrRecognizeGoogle "in.wav" None]) /\
  Asr.transcribe "in.wav" (Some "Google") None Scripted.offline
  = (Raise (RuntimeError "Google ASR request error: recognition connection failed"),
     Scripted.with_calls Scripted.offline
       [Scripted.SrRecord "in.wav"; Scripted.SrRecognizeGoogle "in.wav" None]) /\
  Asr.transcribe "in.wav" None None
    (Scripted.with_whisper Scripted.offline (Ok Scripted.silence))
  = (Ok ("", 0.25%float),
     Scripted.with_calls (Scripted.with_whisper Scripted.offline (Ok Scripted.silence))
       [Scripted.WhisperLoadModel "base"; Scripted.WhisperTranscribe "base" "in.wav"]) /\
  fst (asr_endpoint "google" "RIFF" (mkServer (init 8 None) Scripted.offline))
  = Raise (RuntimeError "Google ASR request error: recognition connection failed").
Proof.
  split; [|split; [|split]].
  - destruct (transcription_failures "in.wav" (Some "Google") None
                Scripted.google_hears_nothing) as (Hgoogle & _).
    destruct (Hgoogle eq_refl "in.wav"
                (Scripted.with_calls Scripted.google_hears_nothing
                   [Scripted.SrRecord "in.wav"])
                (Scripted.with_calls Scripted.google_hears_nothing
                   [Scripted.SrRecord "in.wav";
                    Scripted.SrRecognizeGoogle "in.wav" None])
                eq_refl) as (Hnone & _).
    apply Hnone. reflexivity.
  - destruct (transcription_failures "in.wav" (Some "Google") None
                Scripted.offline) as (Hgoogle & _).
    destruct (Hgoogle eq_refl "in.wav"
                (Scripted.with_calls Scripted.offline [Scripted.SrRecord "in.wav"])
                (Scripted.with_calls Scripted.offline
                   [Scripted.SrRecord "in.wav";
                    Scripted.SrRecognizeGoogle "in.wav" None])
                eq_refl) as (_ & Hreq).
    apply (Hreq "recognition connection failed"). reflexivity.
  - destruct (transcription_failures "in.wav" None None
                (Scripted.with_whisper Scripted.offline (Ok Scripted.silence)))
      as (_ & Hwhisper & _).
    apply (Hwhisper eq_refl "base"
             (Scripted.with_calls
                (Scripted.with_whisper Scripted.offline (Ok Scripted.silence))
                [Scripted.WhisperLoadModel "base"])
             Scripted.silence _ 0.75%float);
      reflexivity.
  - destruct (transcription_failures "in.wav" None None Scripted.offline)
      as (_ & _ & Hsurface & _).
    rewrite (Hsurface (mkServer (init 8 None) Scripted.offline) "google" "RIFF"
               "/tmp/tmpdir" "0123abcd" _ _ _ _ _
               eq_refl eq_refl eq_refl eq_refl).
    reflexivity.
Defined.

(** C8 as stated fails for the whisper engine, the default one: a
    whisper result without text and with a no-speech probability of 0.75
    is returned with confidence 0.25, not 0.0. *)
Lemma whisper_silence_confidence :
  fst (Asr.transcribe "in.wav" None None
         (Scripted.with_whisper Scripted.offline (Ok Scripted.silence)))
  = Ok ("", 0.25%float) /\
  fst (Asr.transcribe "in.wav" None None
         (Scripted.with_whisper Scripted.offline (Ok Scripted.silence)))
  <> Ok ("", 0%float).
Proof.
  split; [reflexivity|].
  intros Heq.
  apply (f_equal (fun r : result (string * float) =>
                    match r with
                    | Ok (_, conf) => PrimFloat.eqb conf 0
                    | Raise _ => true
                    end)) in Heq.
  vm_compute in Heq. discriminate Heq.
Qed.

(** The whisper engine on a result whose list of segments is empty. *)
Example whisper_no_segments :
  fst (Asr.transcribe "in.wav" None None
         (Scripted.with_whisper Scripted.offline
            (Ok (Asr.mkWhisperResult (Some "") (Some [])))))
  = Raise (IndexError "list index out of range").
Proof. reflexivity. Qed.

Lemma hf_ignores_system_prompt_witness :
  Llm.chat [system_msg "Be brief."; user_msg "hi"]
    (Scripted.with_generated Scripted.offline (Ok "User: hi
Assistant: hello"))
  = Llm.chat [system_msg "Answer in French."; user_msg "hi"]
    (Scripted.with_generated Scripted.offline (Ok "User: hi
Assistant: hello")).
Proof.
  destruct (hf_ignores_system_prompt [user_msg "hi"]
              (Scripted.with_generated Scripted.offline (Ok "User: hi
Assistant: hello"))) as (_ & Hunset & Hsame).
  destruct (Hunset eq_refl) as [Hhf _].
  destruct (Hsame Hhf) as [_ Hprompt].
  exact (Hprompt (mkState 8 "Be brief." [user_msg "hi"]) "Answer in French.").
Defined.

Example chat_hf_reply :
  fst (Llm.chat [system_msg "Be brief."; user_msg "hi"]
         (Scripted.with_generated Scripted.offline (Ok "User: hi
Assistant: hello ")))
  = Ok "hello".
Proof. reflexivity. Qed.

End ScriptedExamples.

(* ===================================================================== *)
(** * The snapshot and the objects of the history *)
(* ===================================================================== *)

Section ObjectFacts.
Import Objects.

Lemma alloc_fresh (o : obj) (h : heap) :
  exists l, alloc o h = (Ok l, <[l:=o]> h) /\ h !! l = None.
Proof.
  exists (fresh (dom h)). split; [reflexivity|].
  apply not_elem_of_dom, is_fresh.
Qed.

(** Objects that stay as they are keep the history as it is. *)
Lemma history_value_weaken (self : ConversationState) (h h' : heap) kvs :
  h ⊆ h' ->
  history_value self h = Some kvs ->
  history_value self h' = Some kvs.
Proof.
  intros Hsub. unfold history_value.
  destruct (h !! history self) as [[| |items]|] eqn:Hq; try discriminate.
  rewrite (lookup_weaken _ _ _ _ Hq Hsub).
  intros Hm. apply mapM_Some in Hm. apply mapM_Some.
  eapply Forall2_impl; [exact Hm|].
  intros l kv Hl. cbn beta in *.
  destruct (h !! l) as [[kv'| |]|] eqn:Hhl; try discriminate.
  rewrite (lookup_weaken _ _ _ _ Hhl Hsub). exact Hl.
Qed.

(** A mutation writes to its target, if it writes at all. *)
Lemma mutate_writes_target (m : mutation) (h h' : heap) (r : result unit) :
  mutate m h = (r, h') -> h' = h \/ exists o, h' = <[target m := o]> h.
Proof.
  destruct m as [l x|l i x|l i|l|l xs|d k v|d k|d|d kv']; cbn [mutate target];
    unfold bind, list_items, dict_items, store, modify, raise.
  - destruct (h !! l) as [[]|]; intros [= <- <-]; eauto.
  - destruct (h !! l) as [[|items|]|]; try (intros [= <- <-]; eauto).
    destruct (_ <? _)%nat; intros [= <- <-]; eauto.
  - destruct (h !! l) as [[|items|]|]; try (intros [= <- <-]; eauto).
    destruct (_ <? _)%nat; intros [= <- <-]; eauto.
  - destruct (h !! l) as [[]|]; intros [= <- <-]; eauto.
  - destruct (h !! l) as [[]|]; intros [= <- <-]; eauto.
  - destruct (h !! d) as [[]|]; intros [= <- <-]; eauto.
  - destruct (h !! d) as [[kv| |]|]; try (intros [= <- <-]; eauto).
    destruct (kv !! k); intros [= <- <-]; eauto.
  - destruct (h !! d) as [[]|]; intros [= <- <-]; eauto.
  - destruct (h !! d) as [[]|]; intros [= <- <-]; eauto.
Qed.

(** Mutations of objects that [h0] does not have leave the objects of
    [h0] as they are. *)
Lemma mutate_frame (m : mutation) (h0 h h' : heap) (r : result unit) :
  h0 !! target m = None ->
  h0 ⊆ h ->
  mutate m h = (r, h') ->
  h0 ⊆ h'.
Proof.
  intros Hnew Hsub Hm.
  destruct (mutate_writes_target _ _ _ _ Hm) as [->|[o ->]]; [exact Hsub|].
  apply insert_subseteq_r; assumption.
Qed.

Lemma mutate_all_frame (ms : list mutation) (h0 h : heap) :
  Forall (fun m => h0 !! target m = None) ms ->
  h0 ⊆ h ->
  h0 ⊆ snd (mutate_all ms h).
Proof.
  intros Hms. revert h. induction Hms as [|m ms Hm _ IH]; intros h Hsub.
  - exact Hsub.
  - cbn [mutate_all]. unfold bind.
    destruct (mutate m h) as [[[]|e] h1] eqn:Hmut; cbn [snd].
    + apply IH. exact (mutate_frame _ _ _ _ _ Hm Hsub Hmut).
    + exact (mutate_frame _ _ _ _ _ Hm Hsub Hmut).
Qed.

(** [get_messages] on a heap that has the deque: it returns a new list
    whose first element is a new dictionary, the system message, and
    whose other elements are the references the deque holds; all objects
    that were there are as they were. *)
Lemma get_messages_shallow (self : ConversationState) (h : heap) (items : list loc) :
  h !! history self = Some (Deque items) ->
  exists msgs sys h',
    get_messages self h = (Ok msgs, h') /\
    h !! msgs = None /\
    h !! sys = None /\
    h ⊆ h' /\
    h' !! msgs = Some (PyList (sys :: items)) /\
    h' !! sys = Some (Dict (message_dict "system" (system_prompt self))).
Proof.
  intros Hq.
  set (d := Dict (message_dict "system" (system_prompt self))).
  destruct (alloc_fresh d h) as (sys & Hsys & Hsys_new).
  set (h1 := <[sys:=d]> h) in *.
  destruct (alloc_fresh (PyList [sys]) h1) as (msgs & Hmsgs & Hmsgs_new).
  set (h2 := <[msgs:=PyList [sys]]> h1) in *.
  destruct (alloc_fresh (PyList items) h2) as (copy & Hcopy & Hcopy_new).
  set (h3 := <[copy:=PyList items]> h2) in *.
  assert (msgs <> sys) as Hms.
  { intros ->. unfold h1 in Hmsgs_new. rewrite lookup_insert_eq in Hmsgs_new.
    discriminate. }
  assert (copy <> msgs) as Hcm.
  { intros ->. unfold h2 in Hcopy_new. rewrite lookup_insert_eq in Hcopy_new.
    discriminate. }
  assert (copy <> sys) as Hcs.
  { intros ->. unfold h2, h1 in Hcopy_new.
    rewrite lookup_insert_ne, lookup_insert_eq in Hcopy_new by exact Hms.
    discriminate. }
  assert (h !! msgs = None) as Hmsgs_h.
  { unfold h1 in Hmsgs_new. rewrite lookup_insert_ne in Hmsgs_new by congruence.
    exact Hmsgs_new. }
  assert (h !! copy = None) as Hcopy_h.
  { unfold h2, h1 in Hcopy_new.
    rewrite !lookup_insert_ne in Hcopy_new by congruence. exact Hcopy_new. }
  assert (h2 !! history self = Some (Deque items)) as Hq2.
  { unfold h2, h1. rewrite !lookup_insert_ne by congruence. exact Hq. }
  exists msgs, sys, (<[msgs:=PyList (sys :: items)]> h3).
  split; [|split; [exact Hmsgs_h|split; [exact Hsys_new|split; [|split]]]].
  - unfold get_messages, new_message, bind. fold d. rewrite Hsys. fold h1.
    rewrite Hmsgs. fold h2.
    unfold list_of_deque, bind, deque_items. rewrite Hq2, Hcopy. fold h3.
    unfold list_extend, bind, list_items, store, modify.
    assert (h3 !! msgs = Some (PyList [sys])) as ->.
    { unfold h3, h2. rewrite lookup_insert_ne, lookup_insert_eq by congruence.
      reflexivity. }
    assert (h3 !! copy = Some (PyList items)) as ->.
    { unfold h3. apply lookup_insert_eq. }
    reflexivity.
  - apply insert_subseteq_r; [exact Hmsgs_h|].
    apply insert_subseteq_r; [exact Hcopy_h|].
    apply insert_subseteq_r; [exact Hmsgs_h|].
    apply insert_subseteq. exact Hsys_new.
  - apply lookup_insert_eq.
  - unfold h3, h2, h1.
    rewrite !lookup_insert_ne by congruence. apply lookup_insert_eq.
Qed.

(** Assigning to a key of a dictionary that the deque refers to at
    position [i] changes what the history reads at [i]. *)
Lemma write_reaches_history (self : ConversationState) (h : heap)
    (items : list loc) (i : nat) (l : loc) (kv : gmap string string)
    (k v : string) :
  is_Some (history_value self h) ->
  h !! history self = Some (Deque items) ->
  items !! i = Some l ->
  h !! l = Some (Dict kv) ->
  exists kvs,
    history_value self (snd (mutate (DictSetItem l k v) h)) = Some kvs /\
    kvs !! i = Some (<[k:=v]> kv).
Proof.
  intros Hv Hq Hi Hl.
  assert (history self <> l) as Hne by (intros Heq; congruence).
  assert (snd (mutate (DictSetItem l k v) h) = <[l := Dict (<[k:=v]> kv)]> h)
    as ->.
  { cbn [mutate]. unfold bind, dict_items, store, modify. rewrite Hl.
    reflexivity. }
  unfold history_value in *. rewrite Hq in Hv.
  rewrite lookup_insert_ne, Hq by congruence.
  apply mapM_is_Some in Hv.
  set (read := fun l' : loc =>
                 match <[l := Dict (<[k:=v]> kv)]> h !! l' with
                 | Some (Dict kv') => Some kv'
                 | _ => None
                 end).
  assert (is_Some (mapM read items)) as [kvs Hkvs].
  { apply mapM_is_Some. eapply Forall_impl; [exact Hv|].
    intros l' Hl'. unfold compose, read in *.
    destruct (decide (l = l')) as [<-|Hne'].
    - rewrite lookup_insert_eq. eauto.
    - rewrite lookup_insert_ne by exact Hne'. exact Hl'. }
  exists kvs. split; [exact Hkvs|].
  apply mapM_Some in Hkvs.
  destruct (Forall2_lookup_l _ _ _ _ _ Hkvs Hi) as (kv' & Hkv' & Hread).
  unfold read in Hread. rewrite lookup_insert_eq in Hread.
  injection Hread as <-. exact Hkv'.
Qed.

Example tamper_heap_reached :
  (self <- init 8 None ;; add_user self "hi" ;;; ret self) ∅
  = (Ok tamper_self, tamper_heap).
Proof. vm_compute. reflexivity. Qed.

(** C6, as the code has it: get_messages returns a new list that starts
    with a new dictionary, the system message, followed by the very
    dictionary objects that the history holds. Whatever a caller does to
    the returned list itself (append, assign, delete, clear, replace the
    content) or to the system message, the history reads as before; assigning to a key of
    one of the other elements changes the message that the history reads
    at that position. *)
Theorem snapshot_shallow_copy (self : ConversationState) (h : heap)
    (kvs : list (gmap string string)) :
  history_value self h = Some kvs ->
  exists msgs sys items h',
    get_messages self h = (Ok msgs, h') /\
    h !! history self = Some (Deque items) /\
    h !! msgs = None /\
    h !! sys = None /\
    h' !! msgs = Some (PyList (sys :: items)) /\
    h' !! sys = Some (Dict (message_dict "system" (system_prompt self))) /\
    history_value self h' = Some kvs /\
    (forall ms,
        Forall (on_list_or_system msgs sys) ms ->
        history_value self (snd (mutate_all ms h')) = Some kvs) /\
    (forall i l kv k v,
        items !! i = Some l ->
        kvs !! i = Some kv ->
        exists kvs',
          history_value self (snd (mutate (DictSetItem l k v) h')) = Some kvs' /\
          kvs' !! i = Some (<[k:=v]> kv)).
Proof.
  intros Hv.
  assert (exists items,
             h !! history self = Some (Deque items) /\
             Forall2 (fun l kv => h !! l = Some (Dict kv)) items kvs)
    as (items & Hq & Hread).
  { unfold history_value in Hv.
    destruct (h !! history self) as [[| |items]|]; try discriminate.
    exists items. split; [reflexivity|].
    apply mapM_Some in Hv. eapply Forall2_impl; [exact Hv|].
    intros l kv. cbn beta. destruct (h !! l) as [[]|]; congruence. }
  destruct (get_messages_shallow self h items Hq)
    as (msgs & sys & h' & Hget & Hmsgs & Hsys & Hsub & Hlist & Hdict).
  pose proof (history_value_weaken _ _ _ _ Hsub Hv) as Hv'.
  exists msgs, sys, items, h'.
  repeat (split; [assumption|]).
  split.
  - intros ms Hms.
    apply (history_value_weaken self h); [|exact Hv].
    apply mutate_all_frame; [|exact Hsub].
    eapply Forall_impl; [exact Hms|].
    intros m [-> | ->]; assumption.
  - intros i l kv k v Hi Hkv.
    destruct (Forall2_lookup_l _ _ _ _ _ Hread Hi) as (kv' & Hkv' & Hl).
    assert (kv' = kv) as -> by congruence.
    apply (write_reaches_history self h' items i l kv k v).
    + rewrite Hv'. eauto.
    + exact (lookup_weaken _ _ _ _ Hq Hsub).
    + exact Hi.
    + exact (lookup_weaken _ _ _ _ Hl Hsub).
Qed.

Lemma snapshot_shallow_copy_witness :
  exists msgs sys items h',
    get_messages tamper_self tamper_heap = (Ok msgs, h') /\
    tamper_heap !! history tamper_self = Some (Deque items) /\
    tamper_heap !! msgs = None /\
    tamper_heap !! sys = None /\
    h' !! msgs = Some (PyList (sys :: items)) /\
    h' !! sys
    = Some (Dict (message_dict "system" (system_prompt tamper_self))) /\
    history_value tamper_self h' = Some [message_dict "user" "hi"] /\
    (forall ms,
        Forall (on_list_or_system msgs sys) ms ->
        history_value tamper_self (snd (mutate_all ms h'))
        = Some [message_dict "user" "hi"]) /\
    (forall i l kv k v,
        items !! i = Some l ->
        [message_dict "user" "hi"] !! i = Some kv ->
        exists kvs',
          history_value tamper_self (snd (mutate (DictSetItem l k v) h'))
          = Some kvs' /\
          kvs' !! i = Some (<[k:=v]> kv)).
Proof.
  apply (snapshot_shallow_copy tamper_self tamper_heap [message_dict "user" "hi"]).
  vm_compute. reflexivity.
Defined.

(** C6 as stated fails: the dictionary at index 1 of the snapshot is the
    one the history holds, and a caller that assigns to its content
    changes what the history reads. *)
Lemma snapshot_shares_messages :
  fst (tamper ∅)
  = Ok (Some [message_dict "user" "hi"], Some [message_dict "user" "changed"]) /\
  ~ defensive_copy.
Proof.
  split; [vm_compute; reflexivity|].
  intros Hdc.
  pose (h' := snd (get_messages tamper_self tamper_heap)).
  pose (m := DictSetItem 1%nat "content" "changed").
  specialize (Hdc tamper_self tamper_heap h' (snd (mutate m h')) 3%nat m
                (fst (mutate m h'))).
  assert (history_value tamper_self (snd (mutate m h'))
          = history_value tamper_self tamper_heap) as Heq.
  { apply Hdc.
    - vm_compute. eauto.
    - vm_compute. reflexivity.
    - right. exists [2%nat; 1%nat]. split; [vm_compute; reflexivity|].
      cbn [target m]. apply list_elem_of_In. right. left. reflexivity.
    - destruct (mutate m h'); reflexivity. }
  apply (f_equal (fun v => match v with
                           | Some [kv] => kv !! "content"
                           | _ => None
                           end)) in Heq.
  vm_compute in Heq. discriminate Heq.
Qed.

End ObjectFacts.

(* ===================================================================== *)
(** * The objects stand for the values *)
(* ===================================================================== *)

(** The methods on the heap do to the objects what the methods of
    [State] do to the values; in particular the rounds counted in
    [Objects._trim] are enough. *)
Section Refinement.
Import Objects.

Lemma message_of_dict (role content : string) :
  message_of (message_dict role content) = Some (State.mkMessage role content).
Proof.
  unfold message_of, message_dict.
  rewrite lookup_insert_eq, lookup_insert_ne, lookup_insert_eq by discriminate.
  reflexivity.
Qed.

Lemma represents_read (h : heap) (items : list loc) (msgs : list State.Message) :
  Forall2 (represents h) items msgs ->
  exists kvs,
    mapM (fun l => match h !! l with
                   | Some (Dict kv) => Some kv
                   | _ => None
                   end) items = Some kvs /\
    mapM message_of kvs = Some msgs.
Proof.
  induction 1 as [|l m items msgs Hrep _ IH].
  - exists []. split; reflexivity.
  - destruct Hrep as (kv & Hl & Hkv). destruct IH as (kvs & Hk & Hm).
    exists (kv :: kvs). split.
    + apply mapM_Some. constructor; [rewrite Hl; reflexivity|].
      apply mapM_Some. exact Hk.
    + apply mapM_Some. constructor; [exact Hkv|]. apply mapM_Some. exact Hm.
Qed.

Lemma abstract_Some (self : ConversationState) (h : heap)
    (s : State.ConversationState) :
  abstract self h = Some s <->
  max_turns self = State.max_turns s /\
  system_prompt self = State.system_prompt s /\
  exists items,
    h !! history self = Some (Deque items) /\
    Forall2 (represents h) items (State.history s).
Proof.
  unfold abstract, history_value. split.
  - destruct (h !! history self) as [[| |items]|] eqn:Hq; cbn; try discriminate.
    destruct (mapM _ items) as [kvs|] eqn:Hk; cbn; try discriminate.
    destruct (mapM message_of kvs) as [msgs|] eqn:Hm; cbn; try discriminate.
    intros [= <-]. cbn. repeat split. exists items. split; [reflexivity|].
    apply mapM_Some in Hk, Hm.
    eapply Forall2_trans; [|exact Hk|exact Hm].
    intros l kv m Hl Hkv. cbn beta in Hl.
    destruct (h !! l) as [[kv'| |]|] eqn:Hhl; try discriminate.
    injection Hl as ->. exists kv. split; [exact Hhl|exact Hkv].
  - intros (Hmt & Hsp & items & Hq & HF). rewrite Hq.
    destruct (represents_read h items (State.history s) HF) as (kvs & Hk & Hm).
    rewrite Hk. cbn. rewrite Hm. cbn.
    destruct s; cbn in *; subst; reflexivity.
Qed.

(** The loop treats related deques alike. *)
Lemma _trim_loop_related {A B} (R : A -> B -> Prop) (limit : Z)
    (l1 : list A) (l2 : list B) :
  Forall2 R l1 l2 ->
  fst (State._trim_loop limit l1) = fst (State._trim_loop limit l2) /\
  Forall2 R (snd (State._trim_loop limit l1)) (snd (State._trim_loop limit l2)).
Proof.
  induction 1 as [|x y l1 l2 Hxy HF IH].
  - cbn [State._trim_loop length]. destruct (_ >? _); split; constructor.
  - cbn [State._trim_loop length]. rewrite (Forall2_length _ _ _ HF).
    destruct (_ >? _); [exact IH|].
    split; [reflexivity|]. constructor; assumption.
Qed.

(** The loop on the heap, with rounds to spare, is the loop on the list
    of references that the deque holds. *)
Lemma _trim_loop_heap (self : ConversationState) (its : list loc) :
  forall (rounds : nat) (h : heap),
    h !! history self = Some (Deque its) ->
    (length its < rounds)%nat ->
    _trim_loop rounds self h
    = (fst (State._trim_loop (max_turns self * 2) its),
       <[history self := Deque (snd (State._trim_loop (max_turns self * 2) its))]> h).
Proof.
  induction its as [|x its IH]; intros rounds h Hq Hrounds;
    (destruct rounds as [|rounds]; [cbn in Hrounds; lia|]);
    cbn [_trim_loop State._trim_loop];
    unfold deque_len, deque_popleft, bind, deque_items, store, modify, raise;
    rewrite Hq; unfold ret at 1; cbn [length]; destruct (_ >? _);
    rewrite ?Hq; cbn [fst snd].
  - rewrite insert_id by exact Hq. reflexivity.
  - unfold ret. rewrite insert_id by exact Hq. reflexivity.
  - unfold ret at 1.
    rewrite (IH rounds (<[history self := Deque its]> h)).
    + rewrite insert_insert_eq. reflexivity.
    + apply lookup_insert_eq.
    + cbn [length] in Hrounds. lia.
  - unfold ret. rewrite insert_id by exact Hq. reflexivity.
Qed.

Lemma represents_weaken (h h' : heap) (l : loc) (m : State.Message) :
  h ⊆ h' -> represents h l m -> represents h' l m.
Proof.
  intros Hsub (kv & Hl & Hkv). exists kv.
  split; [exact (lookup_weaken _ _ _ _ Hl Hsub)|exact Hkv].
Qed.

(** Writing a deque does not touch the dictionaries. *)
Lemma represents_store_deque (h : heap) (q l : loc) (its its' : list loc)
    (m : State.Message) :
  h !! q = Some (Deque its') ->
  represents h l m ->
  represents (<[q := Deque its]> h) l m.
Proof.
  intros Hq (kv & Hl & Hkv). exists kv. split; [|exact Hkv].
  rewrite lookup_insert_ne; [exact Hl|].
  intros ->. rewrite Hq in Hl. discriminate.
Qed.

(** Appending a new message and trimming, on the heap and on values. *)
Lemma append_trim_refines (role content : string) (self : ConversationState)
    (h : heap) (s : State.ConversationState) :
  abstract self h = Some s ->
  let s1 := State.set_history s
              (State.history s ++ [State.mkMessage role content]) in
  exists h',
    (m <- new_message role content ;;
     deque_append (history self) m ;;;
     _trim self) h
    = (fst (State._trim s1), h') /\
    abstract self h' = Some (snd (State._trim s1)).
Proof.
  intros Habs s1.
  apply abstract_Some in Habs as (Hmt & Hsp & items & Hq & HF).
  destruct (alloc_fresh (Dict (message_dict role content)) h)
    as (m & Halloc & Hnew).
  set (h1 := <[m := Dict (message_dict role content)]> h) in *.
  assert (h ⊆ h1) as Hsub by (apply insert_subseteq; exact Hnew).
  assert (h1 !! history self = Some (Deque items)) as Hq1
    by exact (lookup_weaken _ _ _ _ Hq Hsub).
  set (h2 := <[history self := Deque (items ++ [m])]> h1).
  assert (Forall2 (represents h1) (items ++ [m])
            (State.history s ++ [State.mkMessage role content])) as HF1.
  { apply Forall2_app.
    - eapply Forall2_impl; [exact HF|].
      intros l msg. apply represents_weaken. exact Hsub.
    - constructor; [|constructor].
      exists (message_dict role content).
      split; [apply lookup_insert_eq|apply message_of_dict]. }
  destruct (_trim_loop_related (represents h1) (max_turns self * 2) _ _ HF1)
    as [Hfst Hsnd].
  assert (h2 !! history self = Some (Deque (items ++ [m]))) as Hq2
    by apply lookup_insert_eq.
  unfold State._trim, s1.
  cbn [State.history State.max_turns State.set_history]. rewrite <- Hmt.
  destruct (State._trim_loop (max_turns self * 2) (State.history s ++ _))
    as [r l2].
  cbn [fst snd] in *.
  eexists. split.
  - unfold bind, new_message. rewrite Halloc. fold h1.
    unfold deque_append, bind, deque_items, store, modify. rewrite Hq1.
    fold h2.
    unfold _trim, deque_len, bind, deque_items. rewrite Hq2. unfold ret at 1.
    rewrite Nat2Z.id.
    rewrite (_trim_loop_heap self (items ++ [m])); [|exact Hq2|lia].
    rewrite Hfst. reflexivity.
  - apply abstract_Some.
    cbn [State.max_turns State.system_prompt State.history State.set_history].
    split; [exact Hmt|]. split; [exact Hsp|].
    eexists. split; [apply lookup_insert_eq|].
    eapply Forall2_impl; [exact Hsnd|].
    intros l msg Hrep.
    apply (represents_store_deque _ _ _ _ (items ++ [m])); [exact Hq2|].
    apply (represents_store_deque _ _ _ _ items); [exact Hq1|exact Hrep].
Qed.

Lemma add_user_refines (text : string) (self : ConversationState) (h : heap)
    (s : State.ConversationState) :
  abstract self h = Some s ->
  exists h',
    add_user self text h = (fst (State.add_user text s), h') /\
    abstract self h' = Some (snd (State.add_user text s)).
Proof. apply (append_trim_refines "user" text). Qed.

Lemma add_assistant_refines (text : string) (self : ConversationState) (h : heap)
    (s : State.ConversationState) :
  abstract self h = Some s ->
  exists h',
    add_assistant self text h = (fst (State.add_assistant text s), h') /\
    abstract self h' = Some (snd (State.add_assistant text s)).
Proof. apply (append_trim_refines "assistant" text). Qed.

Lemma reset_refines (self : ConversationState) (h : heap)
    (s : State.ConversationState) :
  abstract self h = Some s ->
  exists h',
    reset self h = (fst (State.reset s), h') /\
    abstract self h' = Some (snd (State.reset s)).
Proof.
  intros Habs.
  apply abstract_Some in Habs as (Hmt & Hsp & items & Hq & HF).
  eexists. split.
  - unfold reset, deque_clear, bind, deque_items, store, modify. rewrite Hq.
    reflexivity.
  - apply abstract_Some. cbn. split; [exact Hmt|]. split; [exact Hsp|].
    exists []. split; [apply lookup_insert_eq|constructor].
Qed.

Lemma init_refines (mt : Z) (sp : option string) (h : heap) :
  exists self h',
    init mt sp h = (Ok self, h') /\
    h ⊆ h' /\
    abstract self h' = Some (State.init mt sp).
Proof.
  destruct (alloc_fresh (Deque []) h) as (q & Halloc & Hnew).
  eexists _, _. split; [|split].
  - unfold init, bind. rewrite Halloc. reflexivity.
  - apply insert_subseteq. exact Hnew.
  - apply abstract_Some. cbn. repeat split.
    exists []. split; [apply lookup_insert_eq|constructor].
Qed.

(** The list that [get_messages] returns reads as the snapshot of
    [State.get_messages], and the conversation is as before. *)
Lemma get_messages_refines (self : ConversationState) (h : heap)
    (s : State.ConversationState) :
  abstract self h = Some s ->
  exists msgs h' items,
    get_messages self h = (Ok msgs, h') /\
    h' !! msgs = Some (PyList items) /\
    Forall2 (represents h') items
      (State.system_msg (State.system_prompt s) :: State.history s) /\
    abstract self h' = Some s.
Proof.
  intros Habs.
  apply abstract_Some in Habs as (Hmt & Hsp & items & Hq & HF).
  destruct (get_messages_shallow self h items Hq)
    as (msgs & sys & h' & Hget & Hmsgs & Hsys & Hsub & Hlist & Hdict).
  exists msgs, h', (sys :: items).
  split; [exact Hget|]. split; [exact Hlist|]. split.
  - constructor.
    + exists (message_dict "system" (system_prompt self)).
      split; [exact Hdict|]. rewrite Hsp. apply message_of_dict.
    + eapply Forall2_impl; [exact HF|].
      intros l msg. apply represents_weaken. exact Hsub.
  - apply abstract_Some. split; [exact Hmt|]. split; [exact Hsp|].
    exists items. split; [exact (lookup_weaken _ _ _ _ Hq Hsub)|].
    eapply Forall2_impl; [exact HF|].
    intros l msg. apply represents_weaken. exact Hsub.
Qed.

End Refinement.

(* ===================================================================== *)
(** * Further properties of the conversation memory *)
(* ===================================================================== *)

Section EvictionFacts.
Import State.

Lemma newest_length_min {A} (n : nat) (l : list A) :
  length (newest n l) = Nat.min n (length l).
Proof. unfold newest. rewrite length_drop. lia. Qed.

(** On a history within its bound, appending evicts nothing while there
    is room, and the oldest message alone once the history is full. *)
Lemma newest_snoc {A} (n : nat) (l : list A) (x : A) :
  (1 <= n)%nat ->
  (length l <= n)%nat ->
  newest n (l ++ [x])
  = ((if (length l <? n)%nat then l else drop 1 l) ++ [x])%list.
Proof.
  intros Hn Hl. unfold newest. rewrite length_app. cbn [length].
  destruct (Nat.ltb_spec (length l) n) as [Hlt|Hge].
  - replace (length l + 1 - n)%nat with 0%nat by lia. reflexivity.
  - replace (length l + 1 - n)%nat with 1%nat by lia.
    apply drop_app_le. lia.
Qed.

(** X1: with max_turns >= 1 and a history within its bound, add_user and
    add_assistant keep the whole history while it has fewer than
    2*max_turns messages, and evict exactly the oldest message once it
    is full; the new message is always last. *)
Theorem append_evicts_oldest (c : call) (self : ConversationState) :
  1 <= max_turns self ->
  (length (history self) <= Z.to_nat (2 * max_turns self))%nat ->
  do_call c self
  = (Ok tt,
     set_history self
       ((if (length (history self) <? Z.to_nat (2 * max_turns self))%nat
         then history self
         else drop 1 (history self))
        ++ [appended c])%list).
Proof.
  intros Hmt Hlen. rewrite do_call_newest by lia.
  rewrite newest_snoc by (try exact Hlen; lia). reflexivity.
Qed.

Lemma append_evicts_oldest_witness :
  do_call (AddUser "c")
    (mkState 1 "p" [user_msg "a"; assistant_msg "b"])
  = (Ok tt, mkState 1 "p" [assistant_msg "b"; user_msg "c"]).
Proof.
  apply (append_evicts_oldest (AddUser "c")
           (mkState 1 "p" [user_msg "a"; assistant_msg "b"])).
  - cbn. lia.
  - cbn. lia.
Defined.

(** X2: after n add_user/add_assistant calls on a new ConversationState
    with max_turns >= 0, the history holds exactly min(2*max_turns, n)
    messages. *)
Theorem history_length (mt : Z) (sp : option string) (cs : list call) :
  0 <= mt ->
  length (history (snd (run cs (init mt sp))))
  = Nat.min (Z.to_nat (2 * mt)) (length cs).
Proof.
  intros Hmt.
  rewrite (run_newest cs (init mt sp)) by (cbn; lia).
  cbn [snd set_history history init max_turns app].
  rewrite newest_length_min, length_map. reflexivity.
Qed.

Lemma history_length_witness :
  length (history (snd (run [AddUser "a"; AddAssistant "b"; AddUser "c"]
                          (init 1 None))))
  = Nat.min (Z.to_nat (2 * 1)) 3.
Proof.
  apply (history_length 1 None [AddUser "a"; AddAssistant "b"; AddUser "c"]).
  lia.
Defined.

End EvictionFacts.

(* ===================================================================== *)
(** * Further properties of the request handlers *)
(* ===================================================================== *)

Section ConversationFacts.
Context {W : Type} `{!Os W} `{!Llm.Httpx W} `{!Llm.Transformers W}.
Import State Main.

Lemma concat_pairs_length {A} (pairs : list (list A)) :
  Forall (fun p => length p = 2%nat) pairs ->
  length (concat pairs) = (2 * length pairs)%nat.
Proof.
  induction 1 as [|p pairs Hp _ IH]; [reflexivity|].
  cbn [concat length]. rewrite length_app, Hp, IH. lia.
Qed.

Lemma drop_concat_pairs {A} (pairs : list (list A)) (j : nat) :
  Forall (fun p => length p = 2%nat) pairs ->
  drop (2 * j) (concat pairs) = concat (drop j pairs).
Proof.
  intros Hpairs. revert j.
  induction Hpairs as [|p pairs Hp _ IH]; intros j.
  - cbn [concat]. rewrite !drop_nil. reflexivity.
  - destruct j as [|j]; [reflexivity|].
    cbn [concat drop].
    replace (2 * S j)%nat with (length p + 2 * j)%nat by lia.
    rewrite drop_app_add. apply IH.
Qed.

(** The newest [2 * k] messages of whole turns are the newest [k] turns. *)
Lemma newest_concat_pairs {A} (pairs : list (list A)) (k : nat) :
  Forall (fun p => length p = 2%nat) pairs ->
  newest (2 * k) (concat pairs) = concat (newest k pairs).
Proof.
  intros Hpairs. unfold newest.
  rewrite concat_pairs_length by exact Hpairs.
  replace (2 * length pairs - 2 * k)%nat with (2 * (length pairs - k))%nat by lia.
  apply drop_concat_pairs. exact Hpairs.
Qed.

Lemma zip_with_turn_pairs (texts replies : list string) :
  Forall (fun p => length p = 2%nat) (zip_with turn texts replies).
Proof.
  revert replies. induction texts as [|t texts IH]; intros [|r replies];
    cbn [zip_with]; constructor; [reflexivity|apply IH].
Qed.

(** A conversation that went through: one reply per text, the
    configuration as before, and as history the newest part of the old
    history followed by the turns. *)
Lemma converse_newest (texts : list string) :
  forall (srv srv' : Server W) (replies : list string),
    0 <= max_turns (state srv) ->
    (length (history (state srv)) <= Z.to_nat (2 * max_turns (state srv)))%nat ->
    converse texts srv = (Ok replies, srv') ->
    length replies = length texts /\
    max_turns (state srv') = max_turns (state srv) /\
    system_prompt (state srv') = system_prompt (state srv) /\
    history (state srv')
    = newest (Z.to_nat (2 * max_turns (state srv)))
        (history (state srv) ++ concat (zip_with turn texts replies)).
Proof.
  induction texts as [|t texts IH]; intros srv srv' replies Hmt Hlen Hrun.
  - cbn [converse] in Hrun. injection Hrun as <- <-.
    cbn [zip_with concat]. rewrite app_nil_r, newest_all by exact Hlen.
    repeat split.
  - cbn [converse] in Hrun. unfold bind at 1 in Hrun.
    pose proof (reply_endpoint_chat t srv Hmt) as Hreply.
    cbv zeta in Hreply. rewrite Hreply in Hrun. clear Hreply.
    cbn [set_history max_turns system_prompt history] in Hrun.
    destruct (Llm.chat _ (world srv)) as [[reply|e] w']; [|discriminate].
    unfold bind at 1 in Hrun.
    destruct (converse texts _) as [[replies'|e] srv2] eqn:Hrest;
      [|discriminate].
    injection Hrun as <- <-.
    apply IH in Hrest; cbn [state set_history max_turns system_prompt history] in *.
    + destruct Hrest as (Hl & Hm & Hs & Hh).
      split; [cbn [length]; congruence|].
      split; [exact Hm|]. split; [exact Hs|].
      rewrite Hh. cbn [reply_text zip_with concat turn].
      rewrite newest_app_newest, <- app_assoc, newest_app_newest, <- app_assoc.
      reflexivity.
    + exact Hmt.
    + apply newest_length.
Qed.

(** X3: with a negative max_turns, reply_endpoint raises IndexError out
    of add_user: the history is emptied, chat is not called and the
    world is left as it was. *)
Theorem reply_endpoint_negative_max_turns (text : string) (srv : Server W) :
  max_turns (state srv) < 0 ->
  reply_endpoint text srv
  = (Raise (IndexError "pop from an empty deque"),
     mkServer (set_history (state srv) []) (world srv)).
Proof.
  intros Hmt. unfold reply_endpoint. unfold bind at 1. unfold on_state at 1.
  pose proof (do_call_negative (AddUser text) (state srv) Hmt) as Hcall.
  cbn [do_call] in Hcall. rewrite Hcall. reflexivity.
Qed.

(** X4: after a conversation of successful /reply requests that starts
    on an empty history, with max_turns >= 0, there is one reply per
    text and the history consists of whole turns: the newest max_turns
    pairs of user text and assistant reply, in order. *)
Theorem converse_keeps_whole_turns (texts replies : list string)
    (srv srv' : Server W) :
  0 <= max_turns (state srv) ->
  history (state srv) = [] ->
  converse texts srv = (Ok replies, srv') ->
  length replies = length texts /\
  history (state srv')
  = concat (newest (Z.to_nat (max_turns (state srv)))
              (zip_with turn texts replies)).
Proof.
  intros Hmt Hempty Hrun.
  destruct (converse_newest texts srv srv' replies Hmt) as (Hl & _ & _ & Hh);
    [rewrite Hempty; cbn; lia|exact Hrun|].
  split; [exact Hl|].
  rewrite Hh, Hempty. cbn [app].
  replace (Z.to_nat (2 * max_turns (state srv)))
    with (2 * Z.to_nat (max_turns (state srv)))%nat by lia.
  apply newest_concat_pairs, zip_with_turn_pairs.
Qed.

(** X5: with max_turns >= 1, the reply that follows a reset is generated
    from the system message and the new user message alone, whatever the
    history was; afterwards the history is that one turn, or the user
    message alone if chat raised. *)
Theorem reply_after_reset (text : string) (srv : Server W) :
  1 <= max_turns (state srv) ->
  (Main.reset ;;; reply_endpoint text) srv
  = match Llm.chat [system_msg (system_prompt (state srv)); user_msg text]
            (world srv) with
    | (Ok reply, w') =>
        (Ok (JsonReply reply),
         mkServer (set_history (state srv) (turn text reply)) w')
    | (Raise e, w') =>
        (Raise e, mkServer (set_history (state srv) [user_msg text]) w')
    end.
Proof.
  intros Hmt.
  change ((Main.reset ;;; reply_endpoint text) srv)
    with (reply_endpoint text
            (mkServer (set_history (state srv) []) (world srv))).
  pose proof (reply_endpoint_chat text
                (mkServer (set_history (state srv) []) (world srv))) as Hreply.
  cbn [state world set_history max_turns system_prompt history app] in Hreply.
  cbv zeta in Hreply. rewrite Hreply by lia. clear Hreply.
  rewrite (newest_all _ [user_msg text]) by (cbn; lia).
  destruct (Llm.chat _ (world srv)) as [[reply|e] w']; [|reflexivity].
  cbn [set_history max_turns system_prompt history app].
  rewrite (newest_all _ [user_msg text; assistant_msg reply]) by (cbn; lia).
  reflexivity.
Qed.

End ConversationFacts.

(* ===================================================================== *)
(** * Properties of speech synthesis *)
(* ===================================================================== *)

Section TtsFacts.
Context {W : Type} `{!Os W} `{!Builtins} `{!Tts.Pyttsx3 W}.
Import Tts.

Lemma select_voice_find (engine : Engine) (voice_name : string)
    (voices : list Voice) :
  select_voice engine voice_name voices
  = match List.find (voice_matches voice_name) voices with
    | Some v => set_voice engine (v_id v)
    | None => ret tt
    end.
Proof.
  induction voices as [|v voices IH]; [reflexivity|].
  cbn [select_voice List.find]. unfold voice_matches at 1.
  destruct (contains _ _); [reflexivity|exact IH].
Qed.


(** X7: when VOICE_RATE is not an integer, synthesize_to_wav raises the
    ValueError of int() right after the engine is initialised: no rate
    or voice is set and nothing is saved. *)
Theorem synthesize_invalid_rate (text out_path : string) (w w1 : W)
    (engine : Engine) (e : exn) :
  pyttsx3_init w = (Ok engine, w1) ->
  py_int (default_to "170" (os_environ w1 "VOICE_RATE")) = Raise e ->
  synthesize_to_wav text out_path w = (Raise e, w1).
Proof.
  intros Hinit Hrate.
  unfold synthesize_to_wav, bind, environ_get, gets, lift.
  rewrite Hinit, Hrate. reflexivity.
Qed.

(** X8: when VOICE_NAME is unset or empty, synthesize_to_wav does not
    ask the engine for its voices: after setting the rate it goes
    straight to save_to_file and runAndWait, and returns out_path if
    they return. *)
Theorem synthesize_without_voice_name (text out_path : string) (w w1 w2 : W)
    (engine : Engine) (rate : Z) :
  pyttsx3_init w = (Ok engine, w1) ->
  py_int (default_to "170" (os_environ w1 "VOICE_RATE")) = Ok rate ->
  set_rate engine rate w1 = (Ok tt, w2) ->
  no_voice_name (os_environ w2 "VOICE_NAME") ->
  synthesize_to_wav text out_path w
  = (save_to_file engine text out_path ;;; run_and_wait engine ;;; ret out_path) w2.
Proof.
  intros Hinit Hrate Hset Hname.
  unfold synthesize_to_wav, bind, environ_get, environ_get_opt, gets, lift.
  rewrite Hinit, Hrate, Hset.
  destruct Hname as [-> | ->]; reflexivity.
Qed.


End TtsFacts.

(* ===================================================================== *)
(** * Further properties of the speech-to-text engines *)
(* ===================================================================== *)

Section EngineFacts.
Context {W : Type} `{!Asr.SpeechRecognition W} `{!Asr.Whisper W}.
Import Asr.

(** X10: an exception raised while the audio file is read is outside the
    try block of transcribe_google: it reaches the caller as it is,
    whatever its class, and no recognition request is made. *)
Theorem transcribe_google_unreadable (wav_path : string) (api_key : option string)
    (w w1 : W) (e : exn) :
  sr_record wav_path w = (Raise e, w1) ->
  transcribe_google wav_path api_key w = (Raise e, w1).
Proof.
  intros Hrec. unfold transcribe_google, bind. rewrite Hrec. reflexivity.
Qed.

(** X11: transcribe_google handles UnknownValueError and RequestError
    only: any other exception of the recognition request reaches the
    caller unchanged. *)
Theorem transcribe_google_other_exception (wav_path : string)
    (api_key : option string) (w w1 w2 : W) (audio : Audio) (e : exn) :
  sr_record wav_path w = (Ok audio, w1) ->
  sr_recognize_google audio api_key w1 = (Raise e, w2) ->
  e <> UnknownValueError ->
  (forall msg, e <> RequestError msg) ->
  transcribe_google wav_path api_key w = (Raise e, w2).
Proof.
  intros Hrec Hgoogle Hunknown Hrequest.
  unfold transcribe_google, bind, try. rewrite Hrec, Hgoogle.
  destruct e; try reflexivity.
  - contradiction.
  - exfalso. exact (Hrequest msg eq_refl).
Qed.

(** X12: when the whisper result has an empty list of segments,
    transcribe with the whisper engine raises IndexError, whatever text
    the result carries. *)
Theorem transcribe_whisper_empty_segments (wav_path : string)
    (engine api_key : option string) (w w1 w2 : W) (model : WhisperModel)
    (r : WhisperResult) :
  names_google engine = false ->
  whisper_load_model "base" w = (Ok model, w1) ->
  whisper_transcribe model wav_path w1 = (Ok r, w2) ->
  wr_segments r = Some [] ->
  transcribe wav_path engine api_key w
  = (Raise (IndexError "list index out of range"), w2).
Proof.
  intros Hengine Hload Hrun Hsegments.
  rewrite transcribe_engine, Hengine.
  unfold transcribe_whisper, bind, first_no_speech_prob.
  rewrite Hload, Hrun, Hsegments. reflexivity.
Qed.


End EngineFacts.

(* ===================================================================== *)
(** * Further properties of the reply backends *)
(* ===================================================================== *)

Section BackendFacts.
Context {W : Type} `{!Os W} `{!Llm.Httpx W} `{!Llm.Transformers W}.
Import State Llm.

(** X14: every value of LLM_BACKEND other than hf, in any case, selects
    the chat service: chat is then chat_ollama with the model named by
    LLM_MODEL or else llama3, and an unknown backend name is no error. *)
Theorem chat_selects_ollama (messages : list Message) (w : W) :
  ~ selects_hf w ->
  chat messages w
  = chat_ollama messages (default_to "llama3" (os_environ w "LLM_MODEL")) w.
Proof.
  unfold selects_hf. intros Hhf.
  unfold chat, bind, environ_get, gets.
  destruct (String.eqb_spec (lower (default_to "hf" (os_environ w "LLM_BACKEND")))
              "hf") as [Heq|_]; [contradiction|].
  reflexivity.
Qed.

(** X15: when the chat service answers with a success status and a body
    that has no message, or a message without content, chat_ollama
    returns the empty string and raises nothing. *)
Theorem chat_ollama_missing_content (messages : list Message) (model : string)
    (w w' : W) (r : Response) (data : ChatData) :
  httpx_post 60
    (default_to "http://localhost:11434/api/chat" (os_environ w "OLLAMA_URL"))
    (mkPayload model messages false) w = (Ok r, w') ->
  raise_for_status r = Ok tt ->
  response_json r = Ok data ->
  cd_message data = None \/ cd_message data = Some None ->
  chat_ollama messages model w = (Ok "", w').
Proof.
  intros Hpost Hstatus Hjson Hmissing.
  unfold chat_ollama, bind, environ_get, gets, lift, message_content.
  rewrite Hpost, Hstatus, Hjson.
  destruct Hmissing as [-> | ->]; reflexivity.
Qed.

Lemma append_assoc (a b c : string) : (a +:+ b) +:+ c = a +:+ (b +:+ c).
Proof.
  induction a as [|x a IH]; [reflexivity|].
  change (String x ((a +:+ b) +:+ c) = String x (a +:+ (b +:+ c))).
  rewrite IH. reflexivity.
Qed.

Lemma append_empty_r (a : string) : a +:+ "" = a.
Proof.
  induction a as [|x a IH]; [reflexivity|].
  change (String x (a +:+ "") = String x a).
  rewrite IH. reflexivity.
Qed.

Lemma hf_prompt_loop_lines (prompt : string) (messages : list Message) :
  hf_prompt_loop prompt messages
  = prompt
    +:+ String.concat ""
          (map hf_line (filter (fun m => role m <> "system") messages)).
Proof.
  revert prompt. induction messages as [|m messages IH]; intros prompt.
  - cbn. rewrite append_empty_r. reflexivity.
  - cbn [hf_prompt_loop].
    destruct (String.eqb_spec (role m) "system") as [Hsys|Hsys].
    + rewrite filter_cons_False by (intros Hne; exact (Hne Hsys)). apply IH.
    + rewrite filter_cons_True by exact Hsys. rewrite IH.
      cbn [map]. unfold hf_line at 2.
      destruct (filter _ messages) as [|m' rest] eqn:Hrest.
      * cbn [map String.concat]. rewrite append_empty_r. reflexivity.
      * cbn [map String.concat]. rewrite append_assoc. reflexivity.
Qed.

(** X16: the prompt of chat_hf is one line per message that is not a
    system message, in order, each "User: " or "Assistant: " followed by
    the content and a newline, and then "Assistant: "; every role other
    than user and system is written as Assistant. *)
Theorem hf_prompt_lines (messages : list Message) :
  hf_prompt messages
  = String.concat ""
      (map hf_line (filter (fun m => role m <> "system") messages))
    +:+ "Assistant: ".
Proof.
  unfold hf_prompt. rewrite hf_prompt_loop_lines. reflexivity.
Qed.

Lemma length_append (a b : string) :
  String.length (a +:+ b) = (String.length a + String.length b)%nat.
Proof.
  induction a as [|x a IH]; [reflexivity|].
  change (S (String.length (a +:+ b)) = S (String.length a + String.length b)).
  rewrite IH. reflexivity.
Qed.

Lemma substring_whole (s : string) : String.substring 0 (String.length s) s = s.
Proof.
  induction s as [|c s IH]; [reflexivity|].
  change (String c (String.substring 0 (String.length s) s) = String c s).
  rewrite IH. reflexivity.
Qed.

(** What is left of [a +:+ y] from a position inside [a] on ends with [y]. *)
Lemma substring_from_append (a y : string) (k : nat) :
  (k <= String.length a)%nat ->
  String.substring k (String.length (a +:+ y) - k) (a +:+ y)
  = String.substring k (String.length a - k) a +:+ y.
Proof.
  revert k. induction a as [|c a IH]; intros k Hk.
  - cbn in Hk. assert (k = 0%nat) as -> by lia.
    change ("" +:+ y) with y. rewrite Nat.sub_0_r, substring_whole. reflexivity.
  - destruct k as [|k].
    + rewrite !Nat.sub_0_r, !substring_whole. reflexivity.
    + change (String.substring k (String.length (a +:+ y) - k) (a +:+ y)
              = String.substring k (String.length a - k) a +:+ y).
      apply IH. cbn in Hk. lia.
Qed.

Lemma prefix_append (sep y : string) : String.prefix sep (sep +:+ y) = true.
Proof.
  induction sep as [|c sep IH]; [destruct y; reflexivity|].
  change (String c sep +:+ y) with (String c (sep +:+ y)).
  cbn [String.prefix]. destruct (ascii_dec c c); [exact IH|contradiction].
Qed.

Lemma split1_last_nonempty (sep : string) (c : ascii) (t : string) :
  split1_last sep (String c t)
  = if String.prefix sep (String c t)
    then String.substring (String.length sep)
           (String.length (String c t) - String.length sep) (String c t)
    else match String.index 0 sep t with
         | Some _ => split1_last sep t
         | None => String c t
         end.
Proof.
  unfold split1_last. cbn [String.index].
  destruct (String.prefix sep (String c t)); [reflexivity|].
  destruct (String.index 0 sep t) as [n|]; reflexivity.
Qed.

(** [s.split(sep, 1)[-1]] cuts at the first [sep]: what follows any
    occurrence of [sep] in [s] is kept, at the end of the result. *)
Lemma split1_last_keeps_suffix (sep a y : string) :
  exists z, split1_last sep (a +:+ sep +:+ y) = z +:+ y.
Proof.
  induction a as [|c a [z IH]].
  - change ("" +:+ sep +:+ y) with (sep +:+ y).
    destruct (sep +:+ y) as [|b t] eqn:Hs.
    + destruct sep; [|discriminate]. destruct y; [|discriminate].
      exists "". reflexivity.
    + rewrite split1_last_nonempty, <- Hs, prefix_append.
      rewrite (substring_from_append sep y) by lia. eauto.
  - change (String c a +:+ sep +:+ y) with (String c (a +:+ sep +:+ y)).
    rewrite split1_last_nonempty.
    destruct (String.prefix sep _).
    + change (String c (a +:+ sep +:+ y)) with (String c a +:+ sep +:+ y).
      rewrite <- append_assoc.
      rewrite (substring_from_append (String c a +:+ sep) y)
        by (rewrite length_append; lia).
      eauto.
    + destruct (String.index 0 sep _); [eauto|].
      exists (String c (a +:+ sep)).
      change (String c (a +:+ sep) +:+ y) with (String c ((a +:+ sep) +:+ y)).
      rewrite append_assoc. reflexivity.
Qed.

Lemma hf_prompt_loop_prompt (prompt : string) (messages : list Message) :
  hf_prompt_loop prompt messages = prompt +:+ hf_prompt_loop "" messages.
Proof.
  rewrite (hf_prompt_loop_lines prompt), (hf_prompt_loop_lines ""). reflexivity.
Qed.

Lemma hf_prompt_loop_app (prompt : string) (m1 m2 : list Message) :
  hf_prompt_loop prompt (m1 ++ m2)
  = hf_prompt_loop (hf_prompt_loop prompt m1) m2.
Proof.
  revert prompt. induction m1 as [|m m1 IH]; intros prompt; [reflexivity|].
  cbn [app hf_prompt_loop]. destruct (String.eqb (role m) "system"); apply IH.
Qed.

(** The prompt for a list that holds a message written as Assistant: the
    marker of that message, its content, and the prompt for what follows. *)
Lemma hf_prompt_assistant (before after : list Message) (m : Message) :
  role m <> "system" ->
  role m <> "user" ->
  hf_prompt (before ++ m :: after)
  = hf_prompt_loop "" before +:+ "Assistant:"
    +:+ " " +:+ content m +:+ "
" +:+ hf_prompt after.
Proof.
  intros Hsys Huser. unfold hf_prompt.
  rewrite hf_prompt_loop_app. cbn [hf_prompt_loop].
  destruct (String.eqb_spec (role m) "system") as [?|_]; [contradiction|].
  destruct (String.eqb_spec (role m) "user") as [?|_]; [contradiction|].
  rewrite hf_prompt_loop_prompt, !append_assoc. reflexivity.
Qed.

(** X17: chat_hf cuts the generated text at the first "Assistant:". When
    the pipeline returns the prompt followed by its continuation and the
    message list holds a message written as Assistant (any role but user
    and system), the reply is not the continuation alone: before it is
    stripped, it ends with the content of that message, the rest of the
    prompt and then the continuation. *)
Theorem chat_hf_reply_carries_history (before after : list Message)
    (m : Message) (model cont : string) (w w1 w2 : W) (gen : Pipeline) :
  role m <> "system" ->
  role m <> "user" ->
  hf_pipeline "text-generation" model w = (Ok gen, w1) ->
  hf_generate gen (hf_prompt (before ++ m :: after)) w1
  = (Ok (hf_prompt (before ++ m :: after) +:+ cont), w2) ->
  exists z,
    chat_hf (before ++ m :: after) model w
    = (Ok (strip (z +:+ " " +:+ content m +:+ "
" +:+ hf_prompt after +:+ cont)), w2).
Proof.
  intros Hsys Huser Hpipe Hgen.
  destruct (split1_last_keeps_suffix "Assistant:" (hf_prompt_loop "" before)
              (" " +:+ content m +:+ "
" +:+ hf_prompt after +:+ cont)) as [z Hz].
  exists z. unfold chat_hf, bind. rewrite Hpipe, Hgen. unfold ret.
  rewrite <- Hz.
  rewrite (hf_prompt_assistant before after m Hsys Huser), !append_assoc.
  reflexivity.
Qed.

End BackendFacts.

(* ===================================================================== *)
(** * What the methods do to the objects *)
(* ===================================================================== *)

Section MethodFrames.
Import Objects.

Lemma writes_only_ret {A} (q : loc) (a : A) : writes_only q (ret a).
Proof. intros h l o _ Hl. exact Hl. Qed.

Lemma writes_only_raise {A} (q : loc) (e : exn) : writes_only (A := A) q (raise e).
Proof. intros h l o _ Hl. exact Hl. Qed.

Lemma writes_only_bind {A B} (q : loc) (m : M heap A) (k : A -> M heap B) :
  writes_only q m -> (forall a, writes_only q (k a)) -> writes_only q (bind m k).
Proof.
  intros Hm Hk h l o Hne Hl. unfold bind.
  specialize (Hm h l o Hne Hl).
  destruct (m h) as [[a|e] h1]; cbn [snd] in *; [|exact Hm].
  apply Hk; assumption.
Qed.

Lemma writes_only_alloc (q : loc) (o : obj) : writes_only q (alloc o).
Proof.
  intros h l o' _ Hl. unfold alloc. cbn [snd].
  rewrite lookup_insert_ne; [exact Hl|].
  intros <-. pose proof (is_fresh (dom h)) as Hfresh.
  apply not_elem_of_dom in Hfresh. congruence.
Qed.

Lemma writes_only_store (q : loc) (o : obj) : writes_only q (store q o).
Proof.
  intros h l o' Hne Hl. unfold store, modify. cbn [snd].
  rewrite lookup_insert_ne by congruence. exact Hl.
Qed.

Lemma writes_only_deque_items (q q' : loc) : writes_only q (deque_items q').
Proof.
  intros h l o _ Hl. unfold deque_items.
  destruct (h !! q') as [[]|]; exact Hl.
Qed.

Lemma writes_only_deque_append (q x : loc) : writes_only q (deque_append q x).
Proof.
  apply writes_only_bind; [apply writes_only_deque_items|].
  intros items. apply writes_only_store.
Qed.

Lemma writes_only_deque_popleft (q : loc) : writes_only q (deque_popleft q).
Proof.
  apply writes_only_bind; [apply writes_only_deque_items|].
  intros [|x rest]; [apply writes_only_raise|].
  apply writes_only_bind; [apply writes_only_store|].
  intros _. apply writes_only_ret.
Qed.

Lemma writes_only_deque_len (q : loc) : writes_only q (deque_len q).
Proof.
  apply writes_only_bind; [apply writes_only_deque_items|].
  intros items. apply writes_only_ret.
Qed.

Lemma writes_only_trim_loop (rounds : nat) (self : ConversationState) :
  writes_only (history self) (_trim_loop rounds self).
Proof.
  induction rounds as [|rounds IH]; cbn [_trim_loop]; [apply writes_only_ret|].
  apply writes_only_bind; [apply writes_only_deque_len|].
  intros n. destruct (_ >? _); [|apply writes_only_ret].
  apply writes_only_bind; [apply writes_only_deque_popleft|].
  intros _. exact IH.
Qed.

Lemma writes_only_trim (self : ConversationState) :
  writes_only (history self) (_trim self).
Proof.
  apply writes_only_bind; [apply writes_only_deque_len|].
  intros n. apply writes_only_trim_loop.
Qed.

Lemma writes_only_append_trim (self : ConversationState) (role content : string) :
  writes_only (history self)
    (m <- new_message role content ;;
     deque_append (history self) m ;;;
     _trim self).
Proof.
  apply writes_only_bind; [apply writes_only_alloc|].
  intros m. apply writes_only_bind; [apply writes_only_deque_append|].
  intros _. apply writes_only_trim.
Qed.

(** X18: add_user, add_assistant and reset write to the deque and to no
    other object that exists: every message dictionary and every list,
    a snapshot returned earlier included, is afterwards as it was,
    whether the call returned or raised. get_messages, on a heap that
    has the deque, leaves every existing object as it was, the deque
    included. *)
Theorem methods_write_deque_only (self : ConversationState) (text : string)
    (h : heap) :
  writes_only (history self) (add_user self text) /\
  writes_only (history self) (add_assistant self text) /\
  writes_only (history self) (reset self) /\
  (forall items,
      h !! history self = Some (Deque items) ->
      h ⊆ snd (get_messages self h)).
Proof.
  split; [apply writes_only_append_trim|].
  split; [apply writes_only_append_trim|].
  split.
  - apply writes_only_bind; [apply writes_only_deque_items|].
    intros _. apply writes_only_store.
  - intros items Hq.
    destruct (get_messages_shallow self h items Hq)
      as (msgs & sys & h' & Hget & _ & _ & Hsub & _).
    rewrite Hget. exact Hsub.
Qed.

(** X19: two calls of get_messages in a row return two different list
    objects, each with a system-message dictionary of its own, and both
    lists hold, after their system message, the same references: those
    of the deque. *)
Theorem snapshots_are_distinct (self : ConversationState) (h : heap)
    (items : list loc) :
  h !! history self = Some (Deque items) ->
  exists msgs1 sys1 h1 msgs2 sys2 h2,
    get_messages self h = (Ok msgs1, h1) /\
    get_messages self h1 = (Ok msgs2, h2) /\
    msgs1 <> msgs2 /\
    sys1 <> sys2 /\
    h2 !! msgs1 = Some (PyList (sys1 :: items)) /\
    h2 !! msgs2 = Some (PyList (sys2 :: items)) /\
    h2 !! history self = Some (Deque items).
Proof.
  intros Hq.
  destruct (get_messages_shallow self h items Hq)
    as (msgs1 & sys1 & h1 & Hget1 & _ & _ & Hsub1 & Hlist1 & Hdict1).
  pose proof (lookup_weaken _ _ _ _ Hq Hsub1) as Hq1.
  destruct (get_messages_shallow self h1 items Hq1)
    as (msgs2 & sys2 & h2 & Hget2 & Hnew2 & Hsys2 & Hsub2 & Hlist2 & _).
  exists msgs1, sys1, h1, msgs2, sys2, h2.
  split; [exact Hget1|]. split; [exact Hget2|].
  split; [intros Heq; congruence|].
  split; [intros Heq; congruence|].
  split; [exact (lookup_weaken _ _ _ _ Hlist1 Hsub2)|].
  split; [exact Hlist2|].
  exact (lookup_weaken _ _ _ _ Hq1 Hsub2).
Qed.

End MethodFrames.

(* ===================================================================== *)
(** * Temporary directories of the handlers, in the scripted world *)
(* ===================================================================== *)

Section TempDirFacts.
Import Scripted.

Lemma appends_called {A} (P : call -> Prop) (c : call) (answer : World -> result A) :
  P c -> appends P (called c answer).
Proof.
  intros Hc w. exists [c]. split; [reflexivity|]. constructor; [exact Hc|constructor].
Qed.

Lemma appends_pure {A} (P : call -> Prop) (f : World -> result A) :
  appends P (fun w => (f w, w)).
Proof.
  intros w. exists []. cbn [snd]. rewrite app_nil_r. split; [reflexivity|constructor].
Qed.

Lemma appends_bind {A B} (P : call -> Prop) (m : M World A) (k : A -> M World B) :
  appends P m -> (forall a, appends P (k a)) -> appends P (bind m k).
Proof.
  intros Hm Hk w. unfold bind.
  destruct (Hm w) as (new1 & H1 & HP1).
  destruct (m w) as [[a|e] w1]; cbn [snd] in *.
  - destruct (Hk a w1) as (new2 & H2 & HP2).
    exists (new1 ++ new2)%list. rewrite H2, H1, <- app_assoc.
    split; [reflexivity|]. apply Forall_app. split; assumption.
  - exists new1. split; assumption.
Qed.

Lemma appends_try {A} (P : call -> Prop) (m : M World A) (handler : exn -> M World A) :
  appends P m -> (forall e, appends P (handler e)) -> appends P (try m handler).
Proof.
  intros Hm Hh w. unfold try.
  destruct (Hm w) as (new1 & H1 & HP1).
  destruct (m w) as [[a|e] w1]; cbn [snd] in *.
  - exists new1. split; assumption.
  - destruct (Hh e w1) as (new2 & H2 & HP2).
    exists (new1 ++ new2)%list. rewrite H2, H1, <- app_assoc.
    split; [reflexivity|]. apply Forall_app. split; assumption.
Qed.

Lemma handler_appends_on_world {A} (P : call -> Prop) (m : M World A) :
  appends P m -> handler_appends P (Main.on_world m).
Proof.
  intros Hm srv. unfold Main.on_world.
  destruct (Hm (Main.world srv)) as (new & Hnew & HP).
  destruct (m (Main.world srv)) as [r w]. exists new. split; assumption.
Qed.

Lemma handler_appends_ret {A} (P : call -> Prop) (a : A) :
  handler_appends P (ret a).
Proof.
  intros srv. exists []. cbn [snd]. rewrite app_nil_r. split; [reflexivity|constructor].
Qed.

Lemma handler_appends_bind {A B} (P : call -> Prop)
    (m : M (Main.Server World) A) (k : A -> M (Main.Server World) B) :
  handler_appends P m -> (forall a, handler_appends P (k a)) ->
  handler_appends P (bind m k).
Proof.
  intros Hm Hk srv. unfold bind.
  destruct (Hm srv) as (new1 & H1 & HP1).
  destruct (m srv) as [[a|e] srv1]; cbn [snd] in *.
  - destruct (Hk a srv1) as (new2 & H2 & HP2).
    exists (new1 ++ new2)%list. rewrite H2, H1, <- app_assoc.
    split; [reflexivity|]. apply Forall_app. split; assumption.
  - exists new1. split; assumption.
Qed.

Ltac not_rmtree := intros ?; discriminate.

Lemma select_voice_appends (engine : unit) (name : string) (vs : list Tts.Voice) :
  appends not_rmtree (Tts.select_voice engine name vs).
Proof.
  induction vs as [|v vs IH]; cbn [Tts.select_voice].
  - apply (appends_pure not_rmtree (fun _ => Ok tt)).
  - destruct (contains _ _); [|exact IH].
    apply appends_called. not_rmtree.
Qed.

Lemma synthesize_appends (text out_path : string) :
  appends not_rmtree (Tts.synthesize_to_wav text out_path).
Proof.
  unfold Tts.synthesize_to_wav.
  apply appends_bind; [apply appends_called; not_rmtree|intros engine].
  apply appends_bind; [apply appends_pure|intros rate_str].
  apply appends_bind; [apply appends_pure|intros rate].
  apply appends_bind; [apply appends_called; not_rmtree|intros _].
  apply appends_bind; [apply appends_pure|intros voice_name].
  apply appends_bind.
  - destruct voice_name as [[|c s]|]; try apply (appends_pure not_rmtree (fun _ => Ok tt)).
    apply appends_bind; [apply appends_called; not_rmtree|intros vs].
    apply select_voice_appends.
  - intros _.
    apply appends_bind; [apply appends_called; not_rmtree|intros _].
    apply appends_bind; [apply appends_called; not_rmtree|intros _].
    apply (appends_pure not_rmtree (fun _ => Ok out_path)).
Qed.

Lemma transcribe_appends (wav_path : string) (engine api_key : option string) :
  appends not_rmtree (Asr.transcribe wav_path engine api_key).
Proof.
  unfold Asr.transcribe. destruct (String.eqb _ "google").
  - unfold Asr.transcribe_google.
    apply appends_bind; [apply appends_called; not_rmtree|intros audio].
    apply appends_try.
    + apply appends_bind; [apply appends_called; not_rmtree|intros text].
      apply (appends_pure not_rmtree (fun _ => Ok (text, 0.8%float))).
    + intros e. destruct e; cbn [Asr.google_handler];
        apply (appends_pure not_rmtree (fun _ => _)).
  - unfold Asr.transcribe_whisper.
    apply appends_bind; [apply appends_called; not_rmtree|intros model].
    apply appends_bind; [apply appends_called; not_rmtree|intros r].
    destruct (Asr.first_no_speech_prob r); apply (appends_pure not_rmtree (fun _ => _)).
Qed.

(** What [asr_endpoint] does after the upload is written. *)
Lemma asr_endpoint_scripted (engine file : string) (srv : Main.Server World) :
  let w3 := with_calls (Main.world srv)
              (calls (Main.world srv)
               ++ [Mkdtemp; Uuid4; WriteUpload "/tmp/tmpdir/in_0123abcd.wav" file]) in
  Main.asr_endpoint engine file srv
  = match Asr.transcribe "/tmp/tmpdir/in_0123abcd.wav" (Some engine)
            (assoc "GOOGLE_SPEECH_API_KEY" (environ (Main.world srv))) w3 with
    | (Ok tc, w4) =>
        (Ok (Main.JsonTranscript (fst tc) (snd tc)),
         Main.mkServer (Main.state srv)
           (with_calls w4 (calls w4 ++ [Rmtree "/tmp/tmpdir"])))
    | (Raise e, w4) => (Raise e, Main.mkServer (Main.state srv) w4)
    end.
Proof.
  intros w3. unfold Main.asr_endpoint, bind, Main.on_world.
  cbn -[Asr.transcribe String.append].
  change ("/tmp/tmpdir" +:+ "/" +:+ "in_" +:+ "0123abcd" +:+ ".wav")
    with "/tmp/tmpdir/in_0123abcd.wav".
  assert (with_calls
            (with_calls
               (with_calls (Main.world srv)
                  (calls (Main.world srv) ++ [Mkdtemp]))
               ((calls (Main.world srv) ++ [Mkdtemp]) ++ [Uuid4]))
            (((calls (Main.world srv) ++ [Mkdtemp]) ++ [Uuid4])
             ++ [WriteUpload "/tmp/tmpdir/in_0123abcd.wav" file])
          = w3) as ->.
  { unfold w3, with_calls. cbn [environ google whisper http generated voices].
    rewrite <- !app_assoc. reflexivity. }
  destruct (Asr.transcribe _ _ _ w3) as [[tc|e] w4]; reflexivity.
Qed.

(** X20: in the scripted world, speak_endpoint creates a temporary
    directory and never removes it, whether synthesis succeeds or not:
    among the calls it makes after mkdtemp there is no rmtree. *)
Theorem speak_endpoint_keeps_temp_dir (text : string) (srv : Main.Server World) :
  exists new,
    calls (Main.world (snd (Main.speak_endpoint text srv)))
    = (calls (Main.world srv) ++ Mkdtemp :: new)%list /\
    Forall not_rmtree new.
Proof.
  assert (handler_appends not_rmtree
            (hex <- Main.on_world Main.uuid4_hex ;;
             Main.on_world
               (Tts.synthesize_to_wav text
                  ("/tmp/tmpdir" +:+ "/" +:+ "tts_" +:+ hex +:+ ".wav")) ;;;
             ret (Main.FileResponse
                    ("/tmp/tmpdir" +:+ "/" +:+ "tts_" +:+ hex +:+ ".wav")
                    "audio/wav" "reply.wav"))) as Hrest.
  { apply handler_appends_bind;
      [apply handler_appends_on_world, appends_called; not_rmtree|intros hex].
    apply handler_appends_bind;
      [apply handler_appends_on_world, synthesize_appends|intros _].
    apply handler_appends_ret. }
  destruct (Hrest (Main.mkServer (Main.state srv)
                     (with_calls (Main.world srv)
                        (calls (Main.world srv) ++ [Mkdtemp]))))
    as (new & Hnew & HP).
  exists new. split; [|exact HP].
  cbn [Main.world with_calls calls] in Hnew.
  rewrite <- app_assoc in Hnew. exact Hnew.
Qed.

(** X21: in the scripted world, asr_endpoint creates a temporary
    directory, writes the upload into it and calls transcribe; it
    removes the directory, as its last call, exactly when transcribe
    returns. When transcribe raises, no rmtree is made and the directory
    stays. *)
Theorem asr_endpoint_cleanup (engine file : string) (srv : Main.Server World) :
  exists new,
    calls (Main.world (snd (Main.asr_endpoint engine file srv)))
    = (calls (Main.world srv)
       ++ [Mkdtemp; Uuid4; WriteUpload "/tmp/tmpdir/in_0123abcd.wav" file]
       ++ new)%list /\
    match fst (Main.asr_endpoint engine file srv) with
    | Ok _ =>
        exists made,
          new = (made ++ [Rmtree "/tmp/tmpdir"])%list /\ Forall not_rmtree made
    | Raise _ => Forall not_rmtree new
    end.
Proof.
  pose proof (asr_endpoint_scripted engine file srv) as Heq.
  cbv zeta in Heq. rewrite Heq. clear Heq.
  set (w3 := with_calls _ _).
  destruct (transcribe_appends "/tmp/tmpdir/in_0123abcd.wav" (Some engine)
              (assoc "GOOGLE_SPEECH_API_KEY" (environ (Main.world srv))) w3)
    as (made & Hmade & HP).
  destruct (Asr.transcribe _ _ _ w3) as [[tc|e] w4]; cbn [fst snd] in *.
  - exists (made ++ [Rmtree "/tmp/tmpdir"])%list. split; [|eauto].
    cbn [Main.world with_calls calls]. rewrite Hmade.
    unfold w3. cbn [with_calls calls]. rewrite <- !app_assoc. reflexivity.
  - exists made. split; [|exact HP].
    cbn [Main.world]. rewrite Hmade.
    unfold w3. cbn [with_calls calls]. rewrite <- !app_assoc. reflexivity.
Qed.

End TempDirFacts.

(* ===================================================================== *)
(** * The further properties on examples *)
(* ===================================================================== *)

Section FurtherExamples.
Import State Main.

Lemma reply_endpoint_negative_max_turns_witness :
  reply_endpoint "x" (mkServer (init (-1) None) Scripted.offline)
  = (Raise (IndexError "pop from an empty deque"),
     mkServer (init (-1) None) Scripted.offline).
Proof.
  apply (reply_endpoint_negative_max_turns "x"
           (mkServer (init (-1) None) Scripted.offline)).
  cbn. lia.
Defined.

Lemma converse_keeps_whole_turns_witness :
  history (state (snd (converse ["a"; "b"]
                         (mkServer (init 1 None) (Scripted.ollama_says "ok")))))
  = [user_msg "b"; assistant_msg "ok"].
Proof.
  destruct (converse_keeps_whole_turns ["a"; "b"] ["ok"; "ok"]
              (mkServer (init 1 None) (Scripted.ollama_says "ok"))
              (snd (converse ["a"; "b"]
                      (mkServer (init 1 None) (Scripted.ollama_says "ok")))))
    as [_ Hhistory].
  - cbn. lia.
  - reflexivity.
  - vm_compute. reflexivity.
  - exact Hhistory.
Defined.

Lemma reply_after_reset_witness :
  state (snd ((Main.reset ;;; reply_endpoint "hi")
                (mkServer (mkState 1 "p" [user_msg "old"; assistant_msg "older"])
                   (Scripted.ollama_says "ok"))))
  = mkState 1 "p" (turn "hi" "ok").
Proof.
  rewrite (reply_after_reset "hi"
             (mkServer (mkState 1 "p" [user_msg "old"; assistant_msg "older"])
                (Scripted.ollama_says "ok"))) by (cbn; lia).
  reflexivity.
Defined.


Lemma synthesize_invalid_rate_witness :
  Tts.synthesize_to_wav "hello" "/tmp/out.wav"
    (Scripted.with_environ Scripted.offline [("VOICE_RATE", "fast")])
  = (Raise (ValueError "invalid literal for int()"),
     Scripted.with_calls
       (Scripted.with_environ Scripted.offline [("VOICE_RATE", "fast")])
       [Scripted.TtsInit]).
Proof.
  eapply (synthesize_invalid_rate "hello" "/tmp/out.wav"
            (Scripted.with_environ Scripted.offline [("VOICE_RATE", "fast")]));
    reflexivity.
Defined.

Lemma synthesize_without_voice_name_witness :
  Tts.synthesize_to_wav "hello" "/tmp/out.wav" Scripted.offline
  = (Ok "/tmp/out.wav",
     Scripted.with_calls Scripted.offline
       [Scripted.TtsInit; Scripted.TtsSetRate 170;
        Scripted.TtsSaveToFile "hello" "/tmp/out.wav"; Scripted.TtsRunAndWait]).
Proof.
  erewrite (synthesize_without_voice_name "hello" "/tmp/out.wav" Scripted.offline
              (Scripted.with_calls Scripted.offline [Scripted.TtsInit])
              (Scripted.with_calls Scripted.offline
                 [Scripted.TtsInit; Scripted.TtsSetRate 170])).
  - reflexivity.
  - reflexivity.
  - reflexivity.
  - reflexivity.
  - left. reflexivity.
Defined.


Lemma transcribe_google_unreadable_witness :
  @Asr.transcribe_google unit Unreadable.recorder "missing.wav" None tt
  = (Raise (LibraryError "FileNotFoundError"), tt).
Proof.
  apply (@transcribe_google_unreadable unit Unreadable.recorder).
  reflexivity.
Defined.

Lemma transcribe_google_other_exception_witness :
  Asr.transcribe_google "in.wav" None
    (Scripted.with_google Scripted.offline (Raise (LibraryError "SSLError")))
  = (Raise (LibraryError "SSLError"),
     Scripted.with_calls
       (Scripted.with_google Scripted.offline (Raise (LibraryError "SSLError")))
       [Scripted.SrRecord "in.wav"; Scripted.SrRecognizeGoogle "in.wav" None]).
Proof.
  eapply (transcribe_google_other_exception "in.wav" None
            (Scripted.with_google Scripted.offline (Raise (LibraryError "SSLError")))).
  - reflexivity.
  - reflexivity.
  - discriminate.
  - intros msg. discriminate.
Defined.

Lemma transcribe_whisper_empty_segments_witness :
  fst (Asr.transcribe "in.wav" None None
         (Scripted.with_whisper Scripted.offline
            (Ok (Asr.mkWhisperResult (Some " ") (Some [])))))
  = Raise (IndexError "list index out of range").
Proof.
  erewrite (transcribe_whisper_empty_segments "in.wav" None None
              (Scripted.with_whisper Scripted.offline
                 (Ok (Asr.mkWhisperResult (Some " ") (Some []))))).
  - reflexivity.
  - reflexivity.
  - reflexivity.
  - reflexivity.
  - reflexivity.
Defined.


Lemma chat_selects_ollama_witness :
  Llm.chat [user_msg "hi"]
    (Scripted.with_environ Scripted.offline [("LLM_BACKEND", "huggingface")])
  = Llm.chat_ollama [user_msg "hi"] "llama3"
      (Scripted.with_environ Scripted.offline [("LLM_BACKEND", "huggingface")]).
Proof.
  assert (~ Llm.selects_hf
              (Scripted.with_environ Scripted.offline
                 [("LLM_BACKEND", "huggingface")])) as Hbackend.
  { intros Hhf. vm_compute in Hhf. discriminate Hhf. }
  exact (chat_selects_ollama [user_msg "hi"]
           (Scripted.with_environ Scripted.offline [("LLM_BACKEND", "huggingface")])
           Hbackend).
Defined.

Lemma chat_ollama_missing_content_witness :
  fst (Llm.chat_ollama [user_msg "hi"] "llama3"
         (Scripted.with_http Scripted.offline
            (Ok (200, Ok (Llm.mkChatData (Some None))))))
  = Ok "".
Proof.
  erewrite (chat_ollama_missing_content [user_msg "hi"] "llama3"
              (Scripted.with_http Scripted.offline
                 (Ok (200, Ok (Llm.mkChatData (Some None)))))).
  - reflexivity.
  - reflexivity.
  - reflexivity.
  - reflexivity.
  - right. reflexivity.
Defined.

Lemma chat_hf_reply_carries_history_witness :
  exists z,
    Llm.chat_hf
      ([system_msg "p"; user_msg "a"] ++ assistant_msg "b" :: [user_msg "c"])
      "distilgpt2"
      (Scripted.with_generated Scripted.offline
         (Ok (Llm.hf_prompt
                [system_msg "p"; user_msg "a"; assistant_msg "b"; user_msg "c"]
              +:+ "d")))
    = (Ok (strip (z +:+ " " +:+ "b" +:+ "
" +:+ Llm.hf_prompt [user_msg "c"] +:+ "d")),
       Scripted.with_calls
         (Scripted.with_generated Scripted.offline
            (Ok (Llm.hf_prompt
                   [system_msg "p"; user_msg "a"; assistant_msg "b"; user_msg "c"]
                 +:+ "d")))
         [Scripted.HfPipeline "text-generation" "distilgpt2";
          Scripted.HfGenerate "distilgpt2"
            (Llm.hf_prompt
               [system_msg "p"; user_msg "a"; assistant_msg "b"; user_msg "c"])]).
Proof.
  eapply (chat_hf_reply_carries_history [system_msg "p"; user_msg "a"]
            [user_msg "c"] (assistant_msg "b") "distilgpt2" "d").
  - discriminate.
  - discriminate.
  - reflexivity.
  - reflexivity.
Defined.

(** The reply of the example above: the earlier answer and the later
    lines of the prompt come back with the continuation. *)
Example chat_hf_second_turn_reply :
  fst (Llm.chat_hf
         [system_msg "p"; user_msg "a"; assistant_msg "b"; user_msg "c"]
         "distilgpt2"
         (Scripted.with_generated Scripted.offline
            (Ok (Llm.hf_prompt
                   [system_msg "p"; user_msg "a"; assistant_msg "b"; user_msg "c"]
                 +:+ "d"))))
  = Ok "b
User: c
Assistant: d".
Proof. reflexivity. Qed.

Lemma methods_write_deque_only_witness :
  snd (Objects.add_user Objects.tamper_self "x" Objects.tamper_heap) !! 1%nat
  = Some (Objects.Dict (Objects.message_dict "user" "hi")) /\
  Objects.tamper_heap
  ⊆ snd (Objects.get_messages Objects.tamper_self Objects.tamper_heap).
Proof.
  destruct (methods_write_deque_only Objects.tamper_self "x" Objects.tamper_heap)
    as (Huser & _ & _ & Hget).
  split.
  - apply Huser; [discriminate|reflexivity].
  - apply (Hget [1%nat]). reflexivity.
Defined.

Lemma snapshots_are_distinct_witness :
  exists msgs1 sys1 h1 msgs2 sys2 h2,
    Objects.get_messages Objects.tamper_self Objects.tamper_heap = (Ok msgs1, h1) /\
    Objects.get_messages Objects.tamper_self h1 = (Ok msgs2, h2) /\
    msgs1 <> msgs2 /\
    sys1 <> sys2 /\
    h2 !! msgs1 = Some (Objects.PyList [sys1; 1%nat]) /\
    h2 !! msgs2 = Some (Objects.PyList [sys2; 1%nat]) /\
    h2 !! Objects.history Objects.tamper_self = Some (Objects.Deque [1%nat]).
Proof.
  apply (snapshots_are_distinct Objects.tamper_self Objects.tamper_heap [1%nat]).
  reflexivity.
Defined.

End FurtherExamples.

(* ===================================================================== *)
(** * The full history, and the confidence of the Google engine *)
(* ===================================================================== *)

Section SteadyState.
Context {W : Type} `{!Os W} `{!Llm.Httpx W} `{!Llm.Transformers W}.
Import State Main.

(** X22: on a full history of whole turns, with max_turns >= 1,
    reply_endpoint evicts the oldest user message before chat is called:
    the snapshot that chat gets starts, after the system message, with
    the assistant reply of the evicted message. If chat returns, the
    reply is appended and that assistant reply is evicted too, so the
    history is whole turns again; if chat raises, the history stays
    shifted: it starts with an assistant message and ends with the user
    message. *)
Theorem reply_on_full_history (text t1 r1 : string) (rest : list (list Message))
    (srv : Server W) :
  Forall (fun p => length p = 2%nat) rest ->
  max_turns (state srv) = Z.of_nat (length rest) + 1 ->
  history (state srv) = (turn t1 r1 ++ concat rest)%list ->
  reply_endpoint text srv
  = match Llm.chat
            (system_msg (system_prompt (state srv))
             :: assistant_msg r1 :: concat rest ++ [user_msg text])
            (world srv) with
    | (Ok reply, w') =>
        (Ok (JsonReply reply),
         mkServer (set_history (state srv) (concat rest ++ turn text reply)) w')
    | (Raise e, w') =>
        (Raise e,
         mkServer
           (set_history (state srv)
              (assistant_msg r1 :: concat rest ++ [user_msg text]))
           w')
    end.
Proof.
  intros Hrest Hmt Hh.
  pose proof (concat_pairs_length rest Hrest) as Hlen.
  pose proof (reply_endpoint_chat text srv ltac:(lia)) as Hreply.
  cbv zeta in Hreply. rewrite Hreply. clear Hreply.
  cbn [set_history max_turns system_prompt history].
  rewrite Hh, Hmt.
  assert (newest (Z.to_nat (2 * (Z.of_nat (length rest) + 1)))
            ((turn t1 r1 ++ concat rest) ++ [user_msg text])
          = (assistant_msg r1 :: concat rest ++ [user_msg text])%list) as ->.
  { rewrite newest_snoc; [|lia|cbn [turn app length]; lia].
    destruct (Nat.ltb_spec (length (turn t1 r1 ++ concat rest))
                (Z.to_nat (2 * (Z.of_nat (length rest) + 1)))) as [Hlt|_];
      [cbn [turn app length] in Hlt; lia|].
    reflexivity. }
  destruct (Llm.chat _ (world srv)) as [[reply|e] w']; [|reflexivity].
  assert (newest (Z.to_nat (2 * (Z.of_nat (length rest) + 1)))
            ((assistant_msg r1 :: concat rest ++ [user_msg text])
             ++ [assistant_msg reply])
          = (concat rest ++ turn text reply)%list) as ->.
  { rewrite newest_snoc; [|lia|cbn [app length]; rewrite length_app; cbn [length]; lia].
    destruct (Nat.ltb_spec
                (length (assistant_msg r1 :: concat rest ++ [user_msg text]))
                (Z.to_nat (2 * (Z.of_nat (length rest) + 1)))) as [Hlt|_].
    - cbn [length] in Hlt. rewrite length_app in Hlt. cbn [length] in Hlt. lia.
    - change (drop 1 (assistant_msg r1 :: concat rest ++ [user_msg text]))
        with (concat rest ++ [user_msg text])%list.
      rewrite <- app_assoc. reflexivity. }
  reflexivity.
Qed.

End SteadyState.

Section GoogleConfidence.
Context {W : Type} `{!Asr.SpeechRecognition W}.
Import Asr.

(** X23: whenever transcribe_google returns, the confidence is one of
    two constants: 0.8 with the text that Google recognized, or 0.0 with
    the empty text after an UnknownValueError. *)
Theorem transcribe_google_confidence (wav_path : string) (api_key : option string)
    (w w' : W) (text : string) (conf : float) :
  transcribe_google wav_path api_key w = (Ok (text, conf), w') ->
  conf = 0.8%float \/ (text = "" /\ conf = 0%float).
Proof.
  unfold transcribe_google, bind, try.
  destruct (sr_record wav_path w) as [[audio|e] w1]; [|discriminate].
  destruct (sr_recognize_google audio api_key w1) as [[t|e] w2].
  - unfold ret. intros Heq. left.
    apply (f_equal (fun out : result (string * float) * W =>
                      match fst out with
                      | Ok tc => snd tc
                      | Raise _ => conf
                      end)) in Heq.
    cbn in Heq. symmetry. exact Heq.
  - destruct e; cbn [google_handler]; unfold ret, raise; try discriminate.
    intros Heq. right. split.
    + apply (f_equal (fun out : result (string * float) * W =>
                        match fst out with
                        | Ok tc => fst tc
                        | Raise _ => text
                        end)) in Heq.
      cbn in Heq. symmetry. exact Heq.
    + apply (f_equal (fun out : result (string * float) * W =>
                        match fst out with
                        | Ok tc => snd tc
                        | Raise _ => conf
                        end)) in Heq.
      cbn in Heq. symmetry. exact Heq.
Qed.

End GoogleConfidence.

Section SteadyStateExamples.
Import State Main.

Lemma reply_on_full_history_witness :
  reply_endpoint "q3"
    (mkServer
       (mkState 2 "p" (turn "q1" "a1" ++ concat [turn "q2" "a2"]))
       Scripted.offline)
  = (Raise (LibraryError "transformers"),
     mkServer
       (mkState 2 "p"
          [assistant_msg "a1"; user_msg "q2"; assistant_msg "a2"; user_msg "q3"])
       (snd (Llm.chat
               [system_msg "p"; assistant_msg "a1"; user_msg "q2";
                assistant_msg "a2"; user_msg "q3"]
               Scripted.offline))).
Proof.
  rewrite (reply_on_full_history "q3" "q1" "a1" [turn "q2" "a2"]
             (mkServer
                (mkState 2 "p" (turn "q1" "a1" ++ concat [turn "q2" "a2"]))
                Scripted.offline)).
  - reflexivity.
  - repeat constructor.
  - reflexivity.
  - reflexivity.
Defined.

Lemma transcribe_google_confidence_witness :
  0%float = 0.8%float \/ ("" = "" /\ 0%float = 0%float).
Proof.
  apply (transcribe_google_confidence "in.wav" None
           Scripted.google_hears_nothing
           (Scripted.with_calls Scripted.google_hears_nothing
              [Scripted.SrRecord "in.wav";
               Scripted.SrRecognizeGoogle "in.wav" None])).
  reflexivity.
Defined.

End SteadyStateExamples.

(* ===================================================================== *)
(** * Start-up with a negative MAX_TURNS *)
(* ===================================================================== *)

Section StartupFacts.
Context {W : Type} `{!Os W} `{!Builtins}
        `{!Llm.Httpx W} `{!Llm.Transformers W}.
Import State Main.

(** X24: a negative MAX_TURNS is accepted when the module is loaded: the
    conversation state is created with it, with an empty history. Every
    /reply request on that state then raises IndexError out of add_user,
    without calling chat, and leaves the state as it was, so that the
    request after it fails in the same way. *)
Theorem startup_negative_max_turns (w : W) (n : Z) :
  py_int (default_to "8" (os_environ w "MAX_TURNS")) = Ok n ->
  n < 0 ->
  exists st,
    startup w = (Ok st, w) /\
    max_turns st = n /\
    history st = [] /\
    forall text w',
      reply_endpoint text (mkServer st w')
      = (Raise (IndexError "pop from an empty deque"), mkServer st w').
Proof.
  intros Hint Hneg. exists (State.init n None).
  split; [|split; [reflexivity|split; [reflexivity|]]].
  - unfold startup, bind, environ_get, gets, lift, ret. rewrite Hint.
    reflexivity.
  - intros text w'. unfold reply_endpoint. unfold bind at 1.
    unfold on_state at 1. cbn [state world].
    pose proof (do_call_negative (AddUser text) (State.init n None)) as Hcall.
    cbn [do_call] in Hcall. rewrite Hcall by exact Hneg. reflexivity.
Qed.

End StartupFacts.

Section StartupExamples.
Import State Main.

Lemma startup_negative_max_turns_witness :
  exists st,
    startup (H := Signed.builtins)
      (Scripted.with_environ Scripted.offline [("MAX_TURNS", "-1")])
    = (Ok st, Scripted.with_environ Scripted.offline [("MAX_TURNS", "-1")]) /\
    max_turns st = -1 /\
    history st = [] /\
    forall text w',
      reply_endpoint text (mkServer st w')
      = (Raise (IndexError "pop from an empty deque"), mkServer st w').
Proof.
  apply (@startup_negative_max_turns Scripted.World _ Signed.builtins _ _
           (Scripted.with_environ Scripted.offline [("MAX_TURNS", "-1")]) (-1)).
  - reflexivity.
  - lia.
Defined.

End StartupExamples.
